(** * compute_sales.py: a shallow embedding and its verified properties

    The program loads a price catalogue and a sales record (two JSON
    documents), builds a product-to-price dictionary, folds the sales
    against it and reports the total.

    Python values are the ones [json.load] builds.  Floats are the
    kernel's binary64 numbers, so every [+] and [*] below rounds exactly
    as the interpreter does.  Exceptions are explicit results, [print] and
    the dictionary live in an explicit state.  A printed line keeps the
    values it shows; the two float formats of the summary are written out
    as [format] does. *)

From Stdlib Require Import ZArith List String Ascii Bool Floats Lia.
From Stdlib Require Import Permutation DecimalString.
Import ListNotations.

Set Warnings "-register-all".

Local Open Scope string_scope.
Local Open Scope list_scope.

(** ** Values *)

(** What [json.load] returns: [None], [bool], [int], [float], [str],
    [list], and [dict] with [str] keys.  A [dict] is kept as its items in
    insertion order; lookups take the first item with the key. *)
Inductive value : Type :=
| VNone
| VBool (b : bool)
| VInt (z : Z)
| VFloat (f : float)
| VStr (s : string)
| VList (l : list value)
| VDict (d : list (string * value)).

(** The exception classes the program can meet. *)
Inductive exn : Type :=
| KeyError
| ValueError
| TypeError
| AttributeError
| OverflowError
| FileNotFoundError (strerror : string)
| JSONDecodeError
| OSError (strerror : string)
| UnicodeDecodeError
| SystemExit (code : Z).

Inductive result (A : Type) : Type :=
| Ok (a : A)
| Raise (e : exn).
Arguments Ok {A} a.
Arguments Raise {A} e.

(** [except (KeyError, ValueError, TypeError)]: the three classes and the
    subclasses of [ValueError]. *)
Definition caught_by_entry_handler (e : exn) : bool :=
  match e with
  | KeyError | ValueError | TypeError | JSONDecodeError | UnicodeDecodeError => true
  | _ => false
  end.

Fixpoint lookup (k : string) (d : list (string * value)) : option value :=
  match d with
  | [] => None
  | (k', v) :: d' => if String.eqb k' k then Some v else lookup k d'
  end.

(** [v[k]] for a [str] subscript [k]: only a [dict] accepts it. *)
Definition getitem (v : value) (k : string) : result value :=
  match v with
  | VDict d => match lookup k d with
               | Some x => Ok x
               | None => Raise KeyError
               end
  | _ => Raise TypeError
  end.

(** [v.get(k, default)]: a method of [dict] only. *)
Definition get_default (v : value) (k : string) (default : value) : result value :=
  match v with
  | VDict d => Ok (match lookup k d with
                   | Some x => x
                   | None => default
                   end)
  | _ => Raise AttributeError
  end.

(** [isinstance(v, list)] *)
Definition is_list (v : value) : bool :=
  match v with
  | VList _ => true
  | _ => false
  end.

(** ** Floats *)

(** [float(z)] for an [int]: the nearest binary64 number, ties to even;
    [OverflowError] when that is beyond the largest finite float. *)
Definition float_of_int (z : Z) : result float :=
  match binary_normalize prec emax z 0 false with
  | S754_infinity _ => Raise OverflowError
  | sf => Ok (SF2Prim sf)
  end.

Section Coercion.

(** [float(s)] for a [str]: Python's parser of float literals ([None] is
    its [ValueError]).  Nothing below depends on which strings it accepts. *)
Variable float_of_str : string -> option float.

(** The builtin [float(v)]. *)
Definition py_float (v : value) : result float :=
  match v with
  | VFloat f => Ok f
  | VInt z => float_of_int z
  | VBool b => Ok (if b then 1%float else 0%float)
  | VStr s => match float_of_str s with
              | Some f => Ok f
              | None => Raise ValueError
              end
  | VNone | VList _ | VDict _ => Raise TypeError
  end.

End Coercion.

(** ** Dictionary keys *)

(** A hashable value up to the equality a [dict] uses: [True == 1 == 1.0],
    [0 == 0.0 == -0.0], a float that is a whole number equals that [int],
    any other float only itself.  [json] builds every [NaN] as one shared
    object, found again by identity. *)
Inductive pykey : Type :=
| KNone
| KStr (s : string)
| KInt (z : Z)
| KFrac (neg : bool) (m : positive) (e : Z)
| KInf (neg : bool)
| KNan.

Definition float_key (f : float) : pykey :=
  match Prim2SF f with
  | S754_nan => KNan
  | S754_infinity s => KInf s
  | S754_zero _ => KInt 0
  | S754_finite s m e =>
      if (0 <=? e)%Z then KInt (cond_Zopp s (Zpos m * 2 ^ e))
      else if (Zpos m mod 2 ^ (- e) =? 0)%Z
           then KInt (cond_Zopp s (Zpos m / 2 ^ (- e)))
           else KFrac s m e
  end.

(** [hash(v)] succeeds ([Some]) or raises [TypeError: unhashable type]. *)
Definition dict_key (v : value) : option pykey :=
  match v with
  | VNone => Some KNone
  | VBool b => Some (KInt (if b then 1 else 0))
  | VInt z => Some (KInt z)
  | VFloat f => Some (float_key f)
  | VStr s => Some (KStr s)
  | VList _ | VDict _ => None
  end.

Definition pykey_eq_dec (a b : pykey) : {a = b} + {a <> b}.
Proof.
  decide equality;
    first [ apply string_dec | apply Z.eq_dec | apply Pos.eq_dec | apply bool_dec ].
Defined.

Definition key_eqb (a b : pykey) : bool :=
  if pykey_eq_dec a b then true else false.

(** The price dictionary: its items in insertion order, keys distinct. *)
Definition pdict : Type := list (pykey * float).

Fixpoint dict_get (d : pdict) (k : pykey) : option float :=
  match d with
  | [] => None
  | (k', v) :: d' => if key_eqb k' k then Some v else dict_get d' k
  end.

(** [d[k] = v]: overwrite in place, or append a new item. *)
Fixpoint dict_set (d : pdict) (k : pykey) (v : float) : pdict :=
  match d with
  | [] => [(k, v)]
  | (k', v') :: d' =>
      if key_eqb k' k then (k', v) :: d' else (k', v') :: dict_set d' k v
  end.

(** [len(d)] *)
Definition dict_len (d : pdict) : nat := List.length d.

(** ** Output and state *)

(** An f-string as Python compiles it: literal parts and formatted fields.
    A field that always holds a [str] (a file name, the text of an
    exception) is its own text and is written into the literal; a field
    that holds a value of the data keeps the value and its format spec. *)
Inductive fragment : Type :=
| Lit (s : string)
| Field (v : value) (spec : string).

Definition text : Type := list fragment.

(** What a run can change: the dictionary object that [price_dict] names,
    the lines printed so far, and the results file once written. *)
Record state : Type := State {
  dict_obj : pdict;
  stdout : list text;
  results_file : option text
}.

Definition fresh : state := State [] [] None.

(** Statements: they read and change the state, and return or raise. *)
Definition M (A : Type) : Type := state -> result A * state.

Definition ret {A : Type} (a : A) : M A := fun s => (Ok a, s).

Definition raise {A : Type} (e : exn) : M A := fun s => (Raise e, s).

Definition bind {A B : Type} (m : M A) (f : A -> M B) : M B :=
  fun s => match m s with
           | (Ok a, s') => f a s'
           | (Raise e, s') => (Raise e, s')
           end.

Notation "x <- m ;; k" := (bind m (fun x => k))
  (at level 61, m at next level, right associativity).
Notation "m ;; k" := (bind m (fun _ => k))
  (at level 61, right associativity).

Definition lift {A : Type} (r : result A) : M A := fun s => (r, s).

(** [try: body / except <classes>: handler] *)
Definition try_except {A : Type} (body : M A) (handles : exn -> bool)
    (handler : M A) : M A :=
  fun s => match body s with
           | (Raise e, s') => if handles e then handler s' else (Raise e, s')
           | r => r
           end.

Definition py_print (t : text) : M unit :=
  fun s => (Ok tt, State (dict_obj s) (stdout s ++ [t]) (results_file s)).

(** [price_dict = {}] *)
Definition dict_new : M unit :=
  fun s => (Ok tt, State [] (stdout s) (results_file s)).

(** Entering a function whose parameter [price_dict] is bound to [d]. *)
Definition dict_bind (d : pdict) : M unit :=
  fun s => (Ok tt, State d (stdout s) (results_file s)).

(** [return price_dict] *)
Definition dict_return : M pdict := fun s => (Ok (dict_obj s), s).

(** [price_dict[product] = price] *)
Definition dict_store (product : value) (price : float) : M unit :=
  fun s => match dict_key product with
           | Some k => (Ok tt, State (dict_set (dict_obj s) k price)
                                      (stdout s) (results_file s))
           | None => (Raise TypeError, s)
           end.

(** [product in price_dict] *)
Definition dict_contains (product : value) : M bool :=
  fun s => match dict_key product with
           | Some k => (Ok (match dict_get (dict_obj s) k with
                            | Some _ => true
                            | None => false
                            end), s)
           | None => (Raise TypeError, s)
           end.

(** [price_dict[product]] *)
Definition dict_fetch (product : value) : M float :=
  fun s => match dict_key product with
           | Some k => match dict_get (dict_obj s) k with
                       | Some v => (Ok v, s)
                       | None => (Raise KeyError, s)
                       end
           | None => (Raise TypeError, s)
           end.

(** [for x in l: acc = body(x, acc)] *)
Fixpoint for_each {A B : Type} (body : A -> B -> M B) (l : list A) (acc : B) : M B :=
  match l with
  | [] => ret acc
  | x :: l' => acc' <- body x acc ;; for_each body l' acc'
  end.

Definition chars (s : string) : list value :=
  map (fun c => VStr (String c EmptyString)) (list_ascii_of_string s).

Definition dict_keys (d : list (string * value)) : list value :=
  map VStr (nodup string_dec (map fst d)).

(** [for x in v]: the elements of a list, the keys of a dict, the
    characters of a str; nothing else here is iterable. *)
Definition py_iter (v : value) : result (list value) :=
  match v with
  | VList l => Ok l
  | VDict d => Ok (dict_keys d)
  | VStr s => Ok (chars s)
  | VNone | VBool _ | VInt _ | VFloat _ => Raise TypeError
  end.

(** ** The program *)

(** What the file system and the clock answer during one run. *)
Record world : Type := World {
  argv : list string;                    (* sys.argv *)
  read_json : string -> result value;    (* open(path) and json.load *)
  write_file : result unit;              (* open(RESULT_FILE, "w") and write *)
  time_start : float;                    (* first time.time() *)
  time_end : float                       (* second time.time() *)
}.

Definition nl : string := String "010"%char EmptyString.

Section Program.

Variable float_of_str : string -> option float.
Variable w : world.

Definition load_json_file (filename : string) : M value :=
  match read_json w filename with
  | Ok doc => ret doc
  | Raise (FileNotFoundError _) =>
      py_print [Lit ("ERROR: File '" ++ filename ++ "' not found.")] ;;
      ret VNone
  | Raise JSONDecodeError =>
      py_print [Lit ("ERROR: File '" ++ filename ++ "' contains invalid JSON.")] ;;
      ret VNone
  | Raise (OSError exc) =>
      py_print [Lit ("ERROR: Cannot open file '" ++ filename ++ "': " ++ exc)] ;;
      ret VNone
  | Raise e => raise e
  end.

Definition price_entry_body (entry : value) (_ : unit) : M unit :=
  try_except
    (product <- lift (getitem entry "product") ;;
     raw <- lift (getitem entry "price") ;;
     price <- lift (py_float float_of_str raw) ;;
     dict_store product price)
    caught_by_entry_handler
    (py_print [Lit "WARNING: Invalid price entry skipped: "; Field entry ""]).

Definition build_price_dict (price_data : value) : M pdict :=
  dict_new ;;
  entries <- lift (py_iter price_data) ;;
  for_each price_entry_body entries tt ;;
  dict_return.

Definition sale_item_body (item : value) (total : float) : M float :=
  try_except
    (product <- lift (getitem item "product") ;;
     raw <- lift (getitem item "quantity") ;;
     quantity <- lift (py_float float_of_str raw) ;;
     listed <- dict_contains product ;;
     if negb listed
     then py_print [Lit "WARNING: Product '"; Field product ""; Lit "' not in catalogue."] ;;
          ret total
     else price <- dict_fetch product ;;
          ret (total + price * quantity)%float)
    caught_by_entry_handler
    (py_print [Lit "WARNING: Invalid sale item skipped: "; Field item ""] ;;
     ret total).

Definition sale_body (sale : value) (total : float) : M float :=
  items <- lift (get_default sale "items" (VList [])) ;;
  match items with
  | VList l => for_each sale_item_body l total
  | _ => py_print [Lit "WARNING: Invalid items format in sale: "; Field sale ""] ;;
         ret total
  end.

Definition compute_total_sales (sales_data : value) (price_dict : pdict) : M float :=
  dict_bind price_dict ;;
  sales <- lift (py_iter sales_data) ;;
  for_each sale_body sales 0%float.

Definition write_results (output : text) : M unit :=
  match write_file w with
  | Ok _ => fun s => (Ok tt, State (dict_obj s) (stdout s) (Some output))
  | Raise (OSError exc) | Raise (FileNotFoundError exc) =>
      py_print [Lit ("ERROR: Could not write results file: " ++ exc)]
  | Raise e => raise e
  end.

Definition is_none (v : value) : bool :=
  match v with
  | VNone => true
  | _ => false
  end.

Definition summary (total_sales elapsed_time : float) : text :=
  [Lit (nl ++ "===== SALES SUMMARY =====" ++ nl ++ "Total Sales: $");
   Field (VFloat total_sales) ",.2f";
   Lit (nl ++ "Execution Time: ");
   Field (VFloat elapsed_time) ".6f";
   Lit (" seconds" ++ nl ++ "=========================" ++ nl)].

Definition main : M unit :=
  if negb (Nat.eqb (List.length (argv w)) 3)
  then py_print [Lit "Usage: python computeSales.py priceCatalogue.json salesRecord.json"] ;;
       raise (SystemExit 1)
  else
    let start_time := time_start w in
    let price_file := nth 1 (argv w) "" in
    let sales_file := nth 2 (argv w) "" in
    price_data <- load_json_file price_file ;;
    sales_data <- load_json_file sales_file ;;
    if is_none price_data || is_none sales_data
    then raise (SystemExit 1)
    else
      price_dict <- build_price_dict price_data ;;
      total_sales <- compute_total_sales sales_data price_dict ;;
      let elapsed_time := (time_end w - start_time)%float in
      let output := summary total_sales elapsed_time in
      py_print output ;;
      write_results output.

End Program.

(** The status the interpreter exits with: [0] after a normal return, the
    code of [sys.exit], [1] after any other uncaught exception. *)
Definition exit_status (r : result unit) : Z :=
  match r with
  | Ok _ => 0
  | Raise (SystemExit code) => code
  | Raise _ => 1
  end.

(** ** Reading the data as the specification does *)

(** [isinstance(v, dict)]: the value is a record. *)
Definition is_record (v : value) : bool :=
  match v with
  | VDict _ => true
  | _ => false
  end.

(** An [int] that [float] can convert. *)
Definition int_fits (z : Z) : bool :=
  match float_of_int z with
  | Ok _ => true
  | Raise _ => false
  end.

(** The line items of a transaction: its [items] when that is a list. *)
Definition items_of (sale : value) : list value :=
  match sale with
  | VDict fields => match lookup "items" fields with
                    | Some (VList l) => l
                    | _ => []
                    end
  | _ => []
  end.

Definition line_items (sales : list value) : list value :=
  flat_map items_of sales.

(** The line item reaches [float(item["quantity"])] with an [int] that
    is beyond the floats: it has a [product], and such a [quantity]. *)
Definition overflows (k : string) (item : value) : bool :=
  match item with
  | VDict fields => match lookup "product" fields, lookup k fields with
                    | Some _, Some (VInt z) => negb (int_fits z)
                    | _, _ => false
                    end
  | _ => false
  end.

(** No line item of the list overflows at the field [k]. *)
Definition no_overflow (k : string) (items : list value) : bool :=
  forallb (fun item => negb (overflows k item)) items.

(** A left fold that stops at the first exception. *)
Fixpoint fold_result {A B : Type} (f : A -> B -> result B) (l : list A) (acc : B)
    : result B :=
  match l with
  | [] => Ok acc
  | x :: l' => match f x acc with
               | Ok acc' => fold_result f l' acc'
               | Raise e => Raise e
               end
  end.

Section Reading.

Variable float_of_str : string -> option float.

(** A valid, resolvable line item, its price and its quantity: it has a
    [product] and a [quantity] that [float] accepts, and the product is a
    key of the price index. *)
Definition item_terms (d : pdict) (item : value) : option (float * float) :=
  match item with
  | VDict fields =>
      match lookup "product" fields, lookup "quantity" fields with
      | Some product, Some raw =>
          match py_float float_of_str raw, dict_key product with
          | Ok quantity, Some k =>
              match dict_get d k with
              | Some price => Some (price, quantity)
              | None => None
              end
          | _, _ => None
          end
      | _, _ => None
      end
  | _ => None
  end.

(** What the item is worth: price times quantity. *)
Definition item_amount (d : pdict) (item : value) : option float :=
  match item_terms d item with
  | Some (price, quantity) => Some (price * quantity)%float
  | None => None
  end.

(** The sum the specification states, added up in the order of the data. *)
Definition add_item (d : pdict) (total : float) (item : value) : float :=
  match item_amount d item with
  | Some amount => (total + amount)%float
  | None => total
  end.

Definition total_from (d : pdict) (items : list value) (start : float) : float :=
  fold_left (add_item d) items start.

Definition total_spec (d : pdict) (sales : list value) : float :=
  total_from d (line_items sales) 0%float.

(** What one line item, one transaction and a list of transactions return,
    without the state. *)
Definition item_result (d : pdict) (item : value) (total : float) : result float :=
  match item_amount d item with
  | Some amount => Ok (total + amount)%float
  | None => if overflows "quantity" item then Raise OverflowError else Ok total
  end.

Definition sale_result (d : pdict) (sale : value) (total : float) : result float :=
  match sale with
  | VDict _ => fold_result (item_result d) (items_of sale) total
  | _ => Raise AttributeError
  end.

Definition sales_result (d : pdict) (sales : list value) (total : float)
    : result float :=
  fold_result (sale_result d) sales total.

(** A valid catalogue entry and what it stores. *)
Definition entry_binding (entry : value) : option (pykey * float) :=
  match entry with
  | VDict fields =>
      match lookup "product" fields, lookup "price" fields with
      | Some product, Some raw =>
          match py_float float_of_str raw, dict_key product with
          | Ok price, Some k => Some (k, price)
          | _, _ => None
          end
      | _, _ => None
      end
  | _ => None
  end.

(** A valid entry as the claim words it: a [product] key, and a [price]
    that [float] accepts. *)
Definition valid_as_claimed (entry : value) : bool :=
  match entry with
  | VDict fields =>
      match lookup "product" fields, lookup "price" fields with
      | Some _, Some raw => match py_float float_of_str raw with
                            | Ok _ => true
                            | Raise _ => false
                            end
      | _, _ => false
      end
  | _ => false
  end.

(** The product keys of the valid entries, in order. *)
Definition entry_keys (entries : list value) : list pykey :=
  flat_map (fun entry => match entry_binding entry with
                         | Some (k, _) => [k]
                         | None => []
                         end) entries.

(** What one catalogue entry does to the dictionary, and a list of them. *)
Definition entry_result (entry : value) (d : pdict) : result pdict :=
  match entry_binding entry with
  | Some (k, price) => Ok (dict_set d k price)
  | None => if overflows "price" entry then Raise OverflowError else Ok d
  end.

Definition entries_result (entries : list value) (d : pdict) : result pdict :=
  fold_result entry_result entries d.

End Reading.

(** [load_json_file] returns [None]: one of the three failures it reports,
    or a document that is the JSON value [null]. *)
Definition absent (r : result value) : bool :=
  match r with
  | Ok VNone => true
  | Raise (FileNotFoundError _) | Raise JSONDecodeError | Raise (OSError _) => true
  | _ => false
  end.

(** Opening and parsing ends in a document or in one of the failures that
    [load_json_file] reports. *)
Definition load_settles (r : result value) : bool :=
  match r with
  | Ok _ => true
  | Raise (FileNotFoundError _) | Raise JSONDecodeError | Raise (OSError _) => true
  | _ => false
  end.

(** Writing the results file succeeds or fails with an [OSError]. *)
Definition write_settles (r : result unit) : bool :=
  match r with
  | Ok _ => true
  | Raise (FileNotFoundError _) | Raise (OSError _) => true
  | _ => false
  end.

(** What the state looks like after one more printed line. *)
Definition after_print (s : state) (t : text) : state :=
  State (dict_obj s) (stdout s ++ [t]) (results_file s).

(** A loop body that only reads the dictionary: it returns what [f]
    computes from the dictionary, and changes nothing but the output. *)
Definition reads_only {A B : Type} (body : A -> B -> M B)
    (f : pdict -> A -> B -> result B) : Prop :=
  forall x acc s, exists out,
    body x acc s =
    (f (dict_obj s) x acc, State (dict_obj s) (stdout s ++ out) (results_file s)).

(** [t'] is not below [t], unless one of them is NaN. *)
Definition not_below (t t' : float) : Prop :=
  PrimFloat.is_nan t = false -> PrimFloat.is_nan t' = false ->
  (t <=? t')%float = true.

(** A run started with nothing printed. *)
Definition run {A : Type} (m : M A) : result A * state := m fresh.

Definition returned {A : Type} (r : result A * state) : result A := fst r.

Definition printed {A : Type} (r : result A * state) : list text := stdout (snd r).

Definition dict_after {A : Type} (r : result A * state) : pdict := dict_obj (snd r).

(** ** What a run prints *)





Section Printing.

Variable float_of_str : string -> option float.

(** The dictionary after one catalogue entry, and after a list of them. *)
Definition store_entry (d : pdict) (entry : value) : pdict :=
  match entry_binding float_of_str entry with
  | Some (k, price) => dict_set d k price
  | None => d
  end.

Definition index_of (entries : list value) : pdict :=
  fold_left store_entry entries [].

(** What the valid entries store, in order. *)
Definition bindings (entries : list value) : list (pykey * float) :=
  flat_map (fun entry => match entry_binding float_of_str entry with
                         | Some b => [b]
                         | None => []
                         end) entries.







(** The price that the last valid entry for a product gives. *)
Definition last_price (entries : list value) (k : pykey) : option float :=
  dict_get (rev (bindings entries)) k.


End Printing.

(** What [load_json_file] prints for a file. *)
Definition load_output (w : world) (filename : string) : list text :=
  match read_json w filename with
  | Raise (FileNotFoundError _) =>
      [[Lit ("ERROR: File '" ++ filename ++ "' not found.")]]
  | Raise JSONDecodeError =>
      [[Lit ("ERROR: File '" ++ filename ++ "' contains invalid JSON.")]]
  | Raise (OSError exc) =>
      [[Lit ("ERROR: Cannot open file '" ++ filename ++ "': " ++ exc)]]
  | _ => []
  end.

Definition usage : text :=
  [Lit "Usage: python computeSales.py priceCatalogue.json salesRecord.json"].

(** A printed text without its timing: the field of the elapsed time is
    blanked. *)
Definition untimed (t : text) : text :=
  map (fun f => match f with
                | Field v spec => if String.eqb spec ".6f" then Field VNone spec else f
                | Lit _ => f
                end) t.

(** ** Totals *)

(** [float(z)] for an [int] that it converts: the nearest float. *)
Definition of_Z (z : Z) : float := SF2Prim (binary_normalize prec emax z 0 false).





(** [x] and [y] are equal as floats ([==]), or both NaN. *)
Definition alike (x y : float) : Prop :=
  (x =? y)%float = true \/
  (PrimFloat.is_nan x = true /\ PrimFloat.is_nan y = true).

(** ** The formats of the summary *)














(** ** Sample data *)

(** The examples hold every number as a JSON number, never as text, so
    [float] is never given a string there: they are stated with the parser
    that accepts none, and any other parser gives the same runs. *)
Definition no_text : string -> option float := fun _ => None.

Definition line_item (product : string) (quantity : value) : value :=
  VDict [("product", VStr product); ("quantity", quantity)].

Definition catalogue_entry (product : string) (price : value) : value :=
  VDict [("product", VStr product); ("price", price)].

Definition transaction (items : list value) : value :=
  VDict [("items", VList items)].

(** * Binary64 addition is monotone

    The kernel's floats are specified by the functions of [SpecFloat] (the
    axioms of [FloatAxioms] say so).  This module reads a float as an
    integer number of units of 2^-1074, proves that the rounding of a sum
    is the round-to-nearest-even of the exact sum, and that this rounding
    is monotone.  The theorems the program needs are the last ones:
    [add_mono], [add_nonneg], [add_nan], [add_nan_r], [never_below] and
    [mul_nonneg]. *)
Module Binary64.

Local Open Scope Z_scope.

(** digits *)
Lemma digits2_pos_size (p : positive) : digits2_pos p = Pos.size p.
Proof. induction p; simpl; congruence. Qed.

Lemma digits2_pos_bounds (p : positive) :
  2 ^ (Zpos (digits2_pos p) - 1) <= Zpos p < 2 ^ Zpos (digits2_pos p).
Proof.
  rewrite digits2_pos_size.
  pose proof (Pos.size_gt p) as G. pose proof (Pos.size_le p) as L.
  apply Pos2Z.pos_lt_pos in G. apply Pos2Z.pos_le_pos in L.
  rewrite Pos2Z.inj_pow in G, L.
  split; [|exact G].
  replace (Zpos (Pos.size p)) with (Zpos (Pos.size p) - 1 + 1) in L by lia.
  rewrite Z.pow_add_r in L by lia.
  change (Zpos p~0) with (2 * Zpos p) in L. lia.
Qed.

Lemma digits2_pos_log2 (p : positive) :
  Zpos (digits2_pos p) = Z.log2 (Zpos p) + 1.
Proof.
  pose proof (digits2_pos_bounds p) as [L G].
  symmetry. rewrite (Z.log2_unique (Zpos p) (Zpos (digits2_pos p) - 1)); try lia.
  split; auto. now replace (Z.succ (Zpos (digits2_pos p) - 1)) with (Zpos (digits2_pos p)) by lia.
Qed.

(** iter_pos *)
Lemma iter_pos_nat {A : Type} (f : A -> A) (p : positive) (x : A) :
  iter_pos f p x = Nat.iter (Pos.to_nat p) f x.
Proof.
  revert x. induction p as [p IH|p IH|]; intros x; cbn [iter_pos].
  - rewrite !IH. rewrite Pos2Nat.inj_xI.
    replace (S (2 * Pos.to_nat p))%nat with (Pos.to_nat p + (Pos.to_nat p + 1))%nat by lia.
    rewrite !Nat.iter_add. reflexivity.
  - rewrite !IH. rewrite Pos2Nat.inj_xO.
    replace (2 * Pos.to_nat p)%nat with (Pos.to_nat p + Pos.to_nat p)%nat by lia.
    rewrite Nat.iter_add. reflexivity.
  - reflexivity.
Qed.

Lemma shr_1_spec (q : Z) (r s : bool) :
  0 <= q ->
  shr_1 (Build_shr_record q r s) = Build_shr_record (q / 2) (Z.odd q) (r || s).
Proof.
  intros H. rewrite <- Z.div2_div.
  destruct q as [|p|p]; [reflexivity| |lia].
  destruct p; reflexivity.
Qed.

(** The invariant of [n] right shifts of [m]. *)
Definition shifted (m : Z) (n : Z) (mrs : shr_record) : Prop :=
  exists rem,
    0 <= rem < 2 ^ n /\ m = shr_m mrs * 2 ^ n + rem /\ 0 <= shr_m mrs /\
    shr_r mrs = (2 ^ n <=? 2 * rem) /\
    shr_s mrs = negb (rem =? 0) && negb (2 * rem =? 2 ^ n).

Lemma shifted_iter (m : Z) (n : nat) :
  0 <= m ->
  shifted m (Z.of_nat n) (Nat.iter n shr_1 (Build_shr_record m false false)).
Proof.
  intros Hm. unfold shifted. induction n as [|n IH].
  - exists 0. cbn. split; [lia|]. split; [lia|]. split; [lia|]. split; reflexivity.
  - rewrite Nat2Z.inj_succ.
    change (Nat.iter (S n) shr_1 (Build_shr_record m false false))
      with (shr_1 (Nat.iter n shr_1 (Build_shr_record m false false))).
    destruct (Nat.iter n shr_1 _) as [q r s].
    destruct IH as [rem [Hr [E [Hq [R S]]]]]. cbn [shr_m shr_r shr_s] in E, Hq, R, S.
    rewrite shr_1_spec by assumption.
    rewrite Z.pow_succ_r by lia.
    assert (P : 0 < 2 ^ Z.of_nat n) by (apply Z.pow_pos_nonneg; lia).
    set (p := 2 ^ Z.of_nat n) in *.
    pose proof (Z.div2_odd q) as D. rewrite Z.div2_div in D.
    exists (Z.b2z (Z.odd q) * p + rem). cbn [shr_m shr_r shr_s].
    assert (Hq2 : 0 <= q / 2) by (apply Z.div_pos; lia).
    assert (RS : r || s = negb (rem =? 0)).
    { subst r s. destruct (Z.leb_spec p (2 * rem)); destruct (Z.eqb_spec rem 0);
        destruct (Z.eqb_spec (2 * rem) p); cbn; auto; lia. }
    rewrite RS. clear R S RS.
    destruct (Z.odd q); cbn [Z.b2z] in *.
    + split; [lia|]. split; [nia|]. split; [lia|]. split.
      * symmetry. apply Z.leb_le. lia.
      * destruct (Z.eqb_spec rem 0);
          destruct (Z.eqb_spec (1 * p + rem) 0);
          destruct (Z.eqb_spec (2 * (1 * p + rem)) (2 * p)); cbn; auto; lia.
    + split; [lia|]. split; [nia|]. split; [lia|]. split.
      * symmetry. apply Z.leb_gt. lia.
      * destruct (Z.eqb_spec rem 0);
          destruct (Z.eqb_spec (0 * p + rem) 0);
          destruct (Z.eqb_spec (2 * (0 * p + rem)) (2 * p)); cbn; auto; lia.
Qed.

(** round to nearest, ties to even, of m / 2^n *)
Definition up (q rem p : Z) : bool :=
  (p <? 2 * rem) || ((2 * rem =? p) && Z.odd q).

Lemma round_shifted (m n : Z) (mrs : shr_record) :
  shifted m n mrs -> 0 <= n ->
  exists rem,
    0 <= rem < 2 ^ n /\ m = shr_m mrs * 2 ^ n + rem /\ 0 <= shr_m mrs /\
    round_nearest_even (shr_m mrs) (loc_of_shr_record mrs) =
    shr_m mrs + Z.b2z (up (shr_m mrs) rem (2 ^ n)).
Proof.
  intros [rem [Hr [E [Hq [R S]]]]] Hn. exists rem.
  split; [assumption|]. split; [assumption|]. split; [assumption|].
  destruct mrs as [q r s]. cbn [shr_m shr_r shr_s] in *. unfold up.
  assert (P : 0 < 2 ^ n) by (apply Z.pow_pos_nonneg; lia).
  set (p := 2 ^ n) in *.
  destruct (Z.leb_spec p (2 * rem)); destruct (Z.eqb_spec rem 0);
    destruct (Z.eqb_spec (2 * rem) p); destruct (Z.ltb_spec p (2 * rem));
    subst r s; cbn [negb andb orb round_nearest_even loc_of_shr_record Z.b2z];
    try lia; rewrite <- Z.negb_odd; destruct (Z.odd q); cbn [negb Z.b2z]; lia.
Qed.

Lemma shr_nonpos (mrs : shr_record) (e n : Z) : n <= 0 -> shr mrs e n = (mrs, e).
Proof. destruct n; try reflexivity. lia. Qed.

Lemma shr_pos (m e n : Z) :
  0 <= m -> 0 < n ->
  exists mrs, shr (Build_shr_record m false false) e n = (mrs, e + n) /\ shifted m n mrs.
Proof.
  intros Hm Hn. destruct n as [|p|p]; try lia.
  cbn [shr]. rewrite iter_pos_nat. eexists. split; [reflexivity|].
  rewrite <- (positive_nat_Z p) at 1. now apply shifted_iter.
Qed.

Lemma iter_xO (m d : positive) : Zpos (Pos.iter xO m d) = Zpos m * 2 ^ Zpos d.
Proof.
  apply (Pos.iter_ind _ xO m (fun p a => Zpos a = Zpos m * 2 ^ Zpos p)).
  - rewrite Z.pow_1_r. lia.
  - intros p a H. rewrite Pos2Z.inj_succ, Z.pow_succ_r by lia.
    rewrite Pos2Z.inj_xO, H. lia.
Qed.

Lemma shl_align_spec (mx : positive) (ex ex' : Z) :
  ex' <= ex ->
  Zpos (fst (shl_align mx ex ex')) = Zpos mx * 2 ^ (ex - ex') /\
  snd (shl_align mx ex ex') = ex'.
Proof.
  intros H. unfold shl_align.
  destruct (ex' - ex) as [|d|d] eqn:D; try lia; cbn [fst snd].
  - replace (ex - ex') with 0 by lia. rewrite Z.pow_0_r. lia.
  - rewrite iter_xO. replace (ex - ex') with (Zpos d) by lia. lia.
Qed.

Lemma shl_align_keep (mx : positive) (ex ex' : Z) :
  ex <= ex' -> shl_align mx ex ex' = (mx, ex).
Proof. intros H. unfold shl_align. destruct (ex' - ex) eqn:D; try reflexivity. lia. Qed.

Lemma Zdigits2_log2 (m : Z) : 0 < m -> Zdigits2 m = Z.log2 m + 1.
Proof. destruct m; try lia. intros _. apply digits2_pos_log2. Qed.

Lemma log2_bounds (m d : Z) : 0 <= d -> 2 ^ d <= m < 2 ^ (d + 1) -> Z.log2 m = d.
Proof. intros H B. apply Z.log2_unique; auto. Qed.

Lemma pow2_pos (k : Z) : 0 <= k -> 0 < 2 ^ k.
Proof. intros. apply Z.pow_pos_nonneg; lia. Qed.

Lemma pow2_le (a b : Z) : 0 <= a <= b -> 2 ^ a <= 2 ^ b.
Proof. intros. apply Z.pow_le_mono_r; lia. Qed.

Lemma pow2_lt (a b : Z) : 0 <= a < b -> 2 ^ a < 2 ^ b.
Proof. intros. apply Z.pow_lt_mono_r; lia. Qed.

(** The scaled value of a mantissa at an exponent, in units of 2^-1074. *)
Definition scaled (m e : Z) : Z := m * 2 ^ (e + 1074).

Definition big : Z := 2 ^ 2098.

Lemma scaled_normal_small (m e : Z) :
  -1074 <= e <= 971 -> 0 < m < 2 ^ 53 -> scaled m e < big.
Proof.
  intros He Hm. unfold scaled, big.
  pose proof (pow2_pos (e + 1074)). pose proof (pow2_le (53 + (e + 1074)) 2098).
  rewrite Z.pow_add_r in H0 by lia. nia.
Qed.

Lemma scaled_normal_big (m e : Z) :
  971 < e -> 2 ^ 52 <= m -> big <= scaled m e.
Proof.
  intros He Hm. unfold scaled, big.
  pose proof (pow2_pos (e + 1074)). pose proof (pow2_le 2098 (52 + (e + 1074))).
  rewrite Z.pow_add_r in H0 by lia. nia.
Qed.

Definition rounds_to (s : bool) (v : Z) (R : spec_float) : Prop :=
  (v < big /\ exists m e, R = S754_finite s m e /\ bounded prec emax m e = true /\
                          scaled (Zpos m) e = v)
  \/ (big <= v /\ R = S754_infinity s).

Lemma fexp_eq (e : Z) : fexp prec emax e = Z.max (e - 53) (-1074).
Proof. reflexivity. Qed.

Lemma round_tail (s : bool) (mr E : Z) :
  -1074 <= E ->
  (2 ^ 52 <= mr <= 2 ^ 53) \/ (0 < mr < 2 ^ 52 /\ E = -1074) ->
  rounds_to s (scaled mr E)
    (let '(mrs'', e'') := shr_fexp prec emax mr E loc_Exact in
     match shr_m mrs'' with
     | Z0 => S754_zero s
     | Zpos m => if e'' <=? emax - prec then S754_finite s m e'' else S754_infinity s
     | _ => S754_nan
     end).
Proof.
  intros HE H. unfold shr_fexp. cbn [shr_record_of_loc].
  assert (P52 : 0 < 2 ^ 52) by (apply pow2_pos; lia).
  assert (Hmr : 0 < mr) by lia.
  rewrite Zdigits2_log2, fexp_eq by assumption.
  destruct (Z.eq_dec mr (2 ^ 53)) as [->|N].
  - (* carry into the next binade *)
    rewrite Z.log2_pow2 by lia.
    replace (Z.max (53 + 1 + E - 53) (-1074) - E) with 1 by lia.
    cbn [shr iter_pos]. rewrite shr_1_spec by lia. cbn [shr_m].
    change (2 ^ 53 / 2) with (Zpos (2 ^ 52)).
    change (emax - prec) with 971.
    unfold rounds_to.
    assert (EQ : scaled (2 ^ 53) E = scaled (2 ^ 52) (E + 1)).
    { unfold scaled. replace (E + 1 + 1074) with (Z.succ (E + 1074)) by lia.
      rewrite Z.pow_succ_r by lia. change (2 ^ 53) with (2 ^ 52 * 2). lia. }
    rewrite EQ.
    destruct (Z.leb_spec (E + 1) 971).
    + left. split.
      * apply scaled_normal_small; [lia|]. split; [lia|]. apply pow2_lt; lia.
      * exists (2 ^ 52)%positive, (E + 1). split; [reflexivity|]. split.
        -- unfold bounded, canonical_mantissa. rewrite fexp_eq.
           change (Zpos (digits2_pos (2 ^ 52))) with 53.
           change (emax - prec) with 971.
           apply andb_true_iff. split; [apply Z.eqb_eq|apply Z.leb_le]; lia.
        -- reflexivity.
    + right. split; [|reflexivity]. apply scaled_normal_big; lia.
  - destruct mr as [|m|m]; try lia.
    assert (L : Z.max (Z.log2 (Zpos m) + 1 + E - 53) (-1074) - E = 0).
    { destruct H as [H|[H ->]].
      - assert (Z.log2 (Zpos m) = 52)
          by (apply log2_bounds; [lia|]; change (52 + 1) with 53; lia).
        lia.
      - assert (Z.log2 (Zpos m) < 52) by (apply Z.log2_lt_pow2; lia). lia. }
    rewrite L. cbn [shr shr_m].
    change (emax - prec) with 971. unfold rounds_to.
    assert (B : canonical_mantissa prec emax m E = true).
    { unfold canonical_mantissa. rewrite fexp_eq, digits2_pos_log2.
      apply Z.eqb_eq. lia. }
    destruct (Z.leb_spec E 971).
    + left. split.
      * apply scaled_normal_small; [lia|]. destruct H as [H|[H _]]; lia.
      * exists m, E. split; [reflexivity|]. split; [|reflexivity].
        unfold bounded. rewrite B. apply Z.leb_le. change (emax - prec) with 971. lia.
    + right. split; [|reflexivity]. apply scaled_normal_big; lia.
Qed.

(** Rounding a positive scaled value to 53 bits, nearest-even. *)
Definition shift_of (v : Z) : Z := Z.max (Z.log2 v + 1 - 53) 0.

Definition rnd_pos (v : Z) : Z :=
  let p := 2 ^ shift_of v in
  (v / p + Z.b2z (up (v / p) (v mod p) p)) * p.

Lemma rnd_pos_intro (v q rem sh : Z) :
  sh = shift_of v -> v = q * 2 ^ sh + rem -> 0 <= rem < 2 ^ sh ->
  rnd_pos v = (q + Z.b2z (up q rem (2 ^ sh))) * 2 ^ sh.
Proof.
  intros -> E R. unfold rnd_pos.
  assert (Q : q = v / 2 ^ shift_of v) by (apply (Z.div_unique _ _ _ rem); lia).
  assert (M : rem = v mod 2 ^ shift_of v) by (apply (Z.mod_unique _ _ q); lia).
  now rewrite <- Q, <- M.
Qed.

Lemma up_scale (q rem p k : Z) : 0 < k -> up q (rem * k) (p * k) = up q rem p.
Proof.
  intros K. unfold up. f_equal; [|f_equal].
  - destruct (Z.ltb_spec (p * k) (2 * (rem * k))); destruct (Z.ltb_spec p (2 * rem));
      auto; nia.
  - destruct (Z.eqb_spec (2 * (rem * k)) (p * k)); destruct (Z.eqb_spec (2 * rem) p);
      auto; nia.
Qed.

Lemma up_zero (q p : Z) : 0 < p -> up q 0 p = false.
Proof.
  intros P. unfold up.
  destruct (Z.ltb_spec p (2 * 0)); destruct (Z.eqb_spec (2 * 0) p); auto; lia.
Qed.

Lemma shift_of_scaled (m e : Z) :
  0 < m -> -1074 <= e ->
  shift_of (scaled m e) = Z.max (Z.log2 m + 1 + e - 53) (-1074) + 1074.
Proof.
  intros M E. unfold shift_of, scaled.
  rewrite Z.log2_mul_pow2 by lia. lia.
Qed.

Lemma log2_pos_bounds (m : Z) :
  0 < m -> 2 ^ Z.log2 m <= m < 2 ^ (Z.log2 m + 1).
Proof. intros. now apply Z.log2_spec. Qed.

Lemma round_aux_exact (s : bool) (mz : positive) (E : Z) :
  -1074 <= E ->
  Z.max (Z.log2 (Zpos mz) + 1 + E - 53) (-1074) = E ->
  rounds_to s (rnd_pos (scaled (Zpos mz) E))
    (binary_round_aux prec emax s (Zpos mz) E loc_Exact).
Proof.
  intros HE C. unfold binary_round_aux.
  unfold shr_fexp at 1. rewrite Zdigits2_log2, fexp_eq by lia.
  rewrite C, Z.sub_diag, shr_nonpos by lia.
  cbn [shr_record_of_loc shr_m loc_of_shr_record round_nearest_even].
  assert (V : rnd_pos (scaled (Zpos mz) E) = scaled (Zpos mz) E).
  { rewrite (rnd_pos_intro _ (Zpos mz) 0 (E + 1074)).
    - rewrite up_zero by (apply pow2_pos; lia). unfold scaled. cbn [Z.b2z]. lia.
    - rewrite shift_of_scaled by lia. lia.
    - unfold scaled. lia.
    - split; [lia|]. apply pow2_pos; lia. }
  rewrite V. apply round_tail; auto.
  pose proof (log2_pos_bounds (Zpos mz) eq_refl) as [L U].
  pose proof (Z.log2_nonneg (Zpos mz)) as N.
  destruct (Z.max_spec (Z.log2 (Zpos mz) + 1 + E - 53) (-1074)) as [[A B]|[A B]].
  - right. split; [|lia]. split; [lia|].
    eapply Z.lt_le_trans; [exact U|]. apply pow2_le. lia.
  - left. replace (Z.log2 (Zpos mz)) with 52 in L, U by lia.
    change (52 + 1) with 53 in U. lia.
Qed.

Lemma round_aux_shift (s : bool) (mx : positive) (ex : Z) :
  -1074 <= ex ->
  ex < Z.max (Z.log2 (Zpos mx) + 1 + ex - 53) (-1074) ->
  rounds_to s (rnd_pos (scaled (Zpos mx) ex))
    (binary_round_aux prec emax s (Zpos mx) ex loc_Exact).
Proof.
  intros HE C. unfold binary_round_aux.
  unfold shr_fexp at 1. rewrite Zdigits2_log2, fexp_eq by lia.
  set (n := Z.max (Z.log2 (Zpos mx) + 1 + ex - 53) (-1074) - ex).
  assert (Hn : 0 < n) by (unfold n; lia).
  cbn [shr_record_of_loc].
  destruct (shr_pos (Zpos mx) ex n) as [mrs [-> Sh]]; [lia|lia|].
  destruct (round_shifted _ _ _ Sh) as [rem [Hr [E [Hq ->]]]]; [lia|].
  set (q := shr_m mrs) in *.
  set (b := Z.b2z (up q rem (2 ^ n))).
  assert (Hb : 0 <= b <= 1) by (unfold b; destruct (up q rem (2 ^ n)); cbn; lia).
  pose proof (log2_pos_bounds (Zpos mx) eq_refl) as [L U].
  assert (D : Z.log2 (Zpos mx) = 52 + n) by (unfold n in *; lia).
  rewrite D in L, U.
  assert (Pn : 0 < 2 ^ n) by (apply pow2_pos; lia).
  rewrite Z.pow_add_r in L by lia.
  replace (52 + n + 1) with (53 + n) in U by lia.
  rewrite Z.pow_add_r in U by lia.
  assert (P52 : 0 < 2 ^ 52) by (apply pow2_pos; lia).
  assert (P53 : 2 ^ 53 = 2 * 2 ^ 52) by reflexivity.
  assert (Q : 2 ^ 52 <= q < 2 ^ 53) by nia.
  assert (V : rnd_pos (scaled (Zpos mx) ex) = scaled (q + b) (ex + n)).
  { assert (Pk : 0 < 2 ^ (ex + 1074)) by (apply pow2_pos; lia).
    rewrite (rnd_pos_intro _ q (rem * 2 ^ (ex + 1074)) (n + (ex + 1074))).
    - rewrite (Z.pow_add_r 2 n (ex + 1074)) by lia. rewrite up_scale by assumption.
      fold b. unfold scaled. replace (ex + n + 1074) with (n + (ex + 1074)) by lia.
      now rewrite (Z.pow_add_r 2 n (ex + 1074)) by lia.
    - rewrite shift_of_scaled by lia. unfold n. lia.
    - unfold scaled. rewrite (Z.pow_add_r 2 n (ex + 1074)) by lia. rewrite E at 1. lia.
    - rewrite (Z.pow_add_r 2 n (ex + 1074)) by lia. nia. }
  rewrite V. apply round_tail; [lia|]. left. lia.
Qed.

Lemma binary_round_spec (s : bool) (mx : positive) (ex : Z) :
  -1074 <= ex ->
  rounds_to s (rnd_pos (scaled (Zpos mx) ex)) (binary_round prec emax s mx ex).
Proof.
  intros HE. unfold binary_round. rewrite fexp_eq, digits2_pos_log2.
  set (E := Z.max (Z.log2 (Zpos mx) + 1 + ex - 53) (-1074)).
  destruct (Z.lt_ge_cases E ex) as [Lt|Ge].
  - destruct (shl_align_spec mx ex E) as [F S]; [lia|].
    destruct (shl_align mx ex E) as [mz ez]. cbn [fst snd] in F, S. subst ez.
    assert (P : 0 < 2 ^ (ex - E)) by (apply pow2_pos; lia).
    replace (scaled (Zpos mx) ex) with (scaled (Zpos mz) E).
    + apply round_aux_exact; [unfold E; lia|].
      rewrite F, Z.log2_mul_pow2 by lia. unfold E. lia.
    + unfold scaled. rewrite F. replace (ex + 1074) with ((ex - E) + (E + 1074)) by lia.
      rewrite (Z.pow_add_r 2 (ex - E) (E + 1074)) by (unfold E; lia). lia.
  - rewrite shl_align_keep by lia.
    destruct (Z.eq_dec E ex) as [Eq|Ne].
    + apply round_aux_exact; [lia|]. fold E. lia.
    + apply round_aux_shift; [lia|]. fold E. lia.
Qed.

(** ** Rounding is monotone *)

Lemma up_mono (q r1 r2 p : Z) :
  r1 <= r2 -> (Z.b2z (up q r1 p) <= Z.b2z (up q r2 p)).
Proof.
  intros H. unfold up.
  destruct (Z.ltb_spec p (2 * r1)); destruct (Z.ltb_spec p (2 * r2));
    destruct (Z.eqb_spec (2 * r1) p); destruct (Z.eqb_spec (2 * r2) p);
    destruct (Z.odd q); cbn; lia.
Qed.

Lemma b2z_range (b : bool) : 0 <= Z.b2z b <= 1.
Proof. destruct b; cbn; lia. Qed.

Lemma shift_of_le_log2 (v : Z) : 0 < v -> 0 <= shift_of v <= Z.log2 v.
Proof. intros H. pose proof (Z.log2_nonneg v). unfold shift_of. lia. Qed.

Lemma rnd_pos_bounds (v : Z) :
  0 < v -> 2 ^ Z.log2 v <= rnd_pos v <= 2 ^ (Z.log2 v + 1).
Proof.
  intros H. pose proof (shift_of_le_log2 v H) as S.
  pose proof (log2_pos_bounds v H) as [L U].
  unfold rnd_pos. set (sh := shift_of v) in *.
  assert (P : 0 < 2 ^ sh) by (apply pow2_pos; lia).
  assert (A : 0 < 2 ^ (Z.log2 v - sh)) by (apply pow2_pos; lia).
  assert (E1 : 2 ^ Z.log2 v = 2 ^ (Z.log2 v - sh) * 2 ^ sh).
  { rewrite <- Z.pow_add_r by lia. f_equal. lia. }
  assert (E2 : 2 ^ (Z.log2 v + 1) = 2 * (2 ^ (Z.log2 v - sh) * 2 ^ sh)).
  { rewrite <- E1. replace (Z.log2 v + 1) with (Z.succ (Z.log2 v)) by lia.
    apply Z.pow_succ_r. lia. }
  rewrite E1, E2 in *.
  pose proof (Z.div_mod v (2 ^ sh)) as D.
  pose proof (Z.mod_pos_bound v (2 ^ sh) P) as M.
  pose proof (b2z_range (up (v / 2 ^ sh) (v mod 2 ^ sh) (2 ^ sh))) as B.
  set (q := v / 2 ^ sh) in *. set (r := v mod 2 ^ sh) in *.
  set (b := Z.b2z _) in *. set (a := 2 ^ (Z.log2 v - sh)) in *. set (p := 2 ^ sh) in *.
  assert (D' : v = p * q + r) by (apply D; lia).
  assert (Q1 : a <= q) by nia.
  assert (Q2 : q + 1 <= 2 * a) by nia.
  split; nia.
Qed.

Lemma rnd_pos_mono (v1 v2 : Z) : 0 < v1 <= v2 -> rnd_pos v1 <= rnd_pos v2.
Proof.
  intros [H1 H12].
  assert (H2 : 0 < v2) by lia.
  pose proof (Z.log2_le_mono v1 v2 H12) as LL.
  destruct (Z.eq_dec (Z.log2 v1) (Z.log2 v2)) as [E|N].
  - unfold rnd_pos, shift_of. rewrite E.
    set (sh := Z.max (Z.log2 v2 + 1 - 53) 0).
    assert (P : 0 < 2 ^ sh) by (apply pow2_pos; unfold sh; lia).
    pose proof (Z.div_mod v1 (2 ^ sh)) as D1. pose proof (Z.div_mod v2 (2 ^ sh)) as D2.
    pose proof (Z.mod_pos_bound v1 (2 ^ sh) P) as M1.
    pose proof (Z.mod_pos_bound v2 (2 ^ sh) P) as M2.
    pose proof (Z.div_le_mono v1 v2 (2 ^ sh) P H12) as Q.
    set (p := 2 ^ sh) in *.
    set (q1 := v1 / p) in *. set (q2 := v2 / p) in *.
    set (r1 := v1 mod p) in *. set (r2 := v2 mod p) in *.
    assert (D1' : v1 = p * q1 + r1) by (apply D1; lia).
    assert (D2' : v2 = p * q2 + r2) by (apply D2; lia).
    destruct (Z.eq_dec q1 q2) as [EQ|NQ].
    + rewrite EQ in *. assert (R : r1 <= r2) by nia.
      pose proof (up_mono q2 r1 r2 p R). nia.
    + pose proof (b2z_range (up q1 r1 p)). pose proof (b2z_range (up q2 r2 p)). nia.
  - pose proof (rnd_pos_bounds v1 H1) as [_ U].
    pose proof (rnd_pos_bounds v2 H2) as [L _].
    assert (2 ^ (Z.log2 v1 + 1) <= 2 ^ Z.log2 v2).
    { apply pow2_le. pose proof (Z.log2_nonneg v1). lia. }
    lia.
Qed.

Definition rndZ (v : Z) : Z :=
  match v with
  | Z0 => 0
  | Zpos _ => Z.min (rnd_pos v) big
  | Zneg p => - Z.min (rnd_pos (Zpos p)) big
  end.

Lemma big_pos : 0 < big.
Proof. reflexivity. Qed.

Lemma rnd_pos_pos (v : Z) : 0 < v -> 0 < rnd_pos v.
Proof.
  intros H. pose proof (rnd_pos_bounds v H) as [L _].
  pose proof (pow2_pos (Z.log2 v) (Z.log2_nonneg v)). lia.
Qed.

Lemma rndZ_pos (v : Z) : 0 < v -> rndZ v = Z.min (rnd_pos v) big.
Proof. destruct v; try lia. reflexivity. Qed.

Lemma rndZ_neg (v : Z) : v < 0 -> rndZ v = - Z.min (rnd_pos (- v)) big.
Proof. destruct v; try lia. reflexivity. Qed.

Lemma rndZ_mono (v1 v2 : Z) : v1 <= v2 -> rndZ v1 <= rndZ v2.
Proof.
  intros H. pose proof big_pos as B.
  destruct (Z.lt_trichotomy v1 0) as [N1|[Z1|P1]];
    destruct (Z.lt_trichotomy v2 0) as [N2|[Z2|P2]]; try lia.
  - rewrite !rndZ_neg by lia.
    pose proof (rnd_pos_mono (- v2) (- v1)). lia.
  - subst v2. rewrite (rndZ_neg v1) by lia. cbn [rndZ].
    pose proof (rnd_pos_pos (- v1)). lia.
  - rewrite (rndZ_neg v1), (rndZ_pos v2) by lia.
    pose proof (rnd_pos_pos (- v1)). pose proof (rnd_pos_pos v2). lia.
  - subst. lia.
  - subst v1. rewrite (rndZ_pos v2) by lia. cbn [rndZ].
    pose proof (rnd_pos_pos v2). lia.
  - rewrite !rndZ_pos by lia. pose proof (rnd_pos_mono v1 v2). lia.
Qed.

(** ** Values of floats *)

Definition ev (x : spec_float) : Z :=
  match x with
  | S754_zero _ => 0
  | S754_finite s m e => cond_Zopp s (scaled (Zpos m) e)
  | S754_infinity s => cond_Zopp s big
  | S754_nan => 0
  end.

Lemma bounded_facts (m : positive) (e : Z) :
  bounded prec emax m e = true ->
  -1074 <= e <= 971 /\
  Z.max (Z.log2 (Zpos m) + 1 + e - 53) (-1074) = e /\
  Zpos m < 2 ^ 53 /\
  (e = -1074 \/ 2 ^ 52 <= Zpos m).
Proof.
  unfold bounded, canonical_mantissa. rewrite fexp_eq, digits2_pos_log2.
  change (emax - prec) with 971.
  intros H. apply andb_true_iff in H. destruct H as [C B].
  apply Z.eqb_eq in C. apply Z.leb_le in B.
  pose proof (log2_pos_bounds (Zpos m) eq_refl) as [L U].
  pose proof (Z.log2_nonneg (Zpos m)) as N.
  split; [lia|]. split; [lia|]. split.
  - eapply Z.lt_le_trans; [exact U|]. apply pow2_le. lia.
  - destruct (Z.eq_dec e (-1074)) as [|Ne]; [now left|right].
    replace (Z.log2 (Zpos m)) with 52 in L by lia. exact L.
Qed.

Lemma scaled_pos (m : positive) (e : Z) : -1074 <= e -> 0 < scaled (Zpos m) e.
Proof. intros H. unfold scaled. pose proof (pow2_pos (e + 1074)). nia. Qed.

Lemma rnd_pos_exact (m : positive) (e : Z) :
  bounded prec emax m e = true ->
  rnd_pos (scaled (Zpos m) e) = scaled (Zpos m) e /\ scaled (Zpos m) e < big.
Proof.
  intros B. destruct (bounded_facts m e B) as [He [C [M _]]]. split.
  - rewrite (rnd_pos_intro _ (Zpos m) 0 (e + 1074)).
    + rewrite up_zero by (apply pow2_pos; lia). unfold scaled. cbn [Z.b2z]. lia.
    + rewrite shift_of_scaled by lia. lia.
    + unfold scaled. lia.
    + split; [lia|]. apply pow2_pos; lia.
  - apply scaled_normal_small; lia.
Qed.

Lemma rounds_to_ev (s : bool) (v : Z) (R : spec_float) :
  rounds_to s v R ->
  valid_binary R = true /\ R <> S754_nan /\
  ev R = cond_Zopp s (Z.min v big).
Proof.
  intros [[V [m [e [-> [B E]]]]]|[V ->]]; cbn [SpecFloat.valid_binary ev].
  - split; [assumption|]. split; [discriminate|]. rewrite E. f_equal. lia.
  - split; [reflexivity|]. split; [discriminate|]. f_equal. lia.
Qed.

Lemma mag_compare (m1 m2 : positive) (e1 e2 : Z) :
  bounded prec emax m1 e1 = true -> bounded prec emax m2 e2 = true ->
  match e1 ?= e2 with
  | Lt => Lt
  | Gt => Gt
  | Eq => PosDef.Pos.compare_cont Eq m1 m2
  end = (scaled (Zpos m1) e1 ?= scaled (Zpos m2) e2).
Proof.
  intros B1 B2.
  destruct (bounded_facts m1 e1 B1) as [H1 [_ [U1 L1]]].
  destruct (bounded_facts m2 e2 B2) as [H2 [_ [U2 L2]]].
  unfold scaled. symmetry.
  assert (P53 : 2 ^ 53 = 2 * 2 ^ 52) by reflexivity.
  destruct (Z.compare_spec e1 e2) as [E|Lt|Gt].
  - subst e2. change (PosDef.Pos.compare_cont Eq m1 m2) with (Pos.compare m1 m2).
    rewrite Pos2Z.inj_compare.
    pose proof (pow2_pos (e1 + 1074)).
    destruct (Z.compare_spec (Zpos m1) (Zpos m2)).
    + apply Z.compare_eq_iff. nia.
    + apply Z.compare_lt_iff. nia.
    + apply Z.compare_gt_iff. nia.
  - apply Z.compare_lt_iff.
    pose proof (pow2_pos (e1 + 1074)).
    assert (2 * 2 ^ (e1 + 1074) <= 2 ^ (e2 + 1074)).
    { rewrite <- Z.pow_succ_r by lia. apply pow2_le. lia. }
    nia.
  - apply Z.compare_gt_iff.
    pose proof (pow2_pos (e2 + 1074)).
    assert (2 * 2 ^ (e2 + 1074) <= 2 ^ (e1 + 1074)).
    { rewrite <- Z.pow_succ_r by lia. apply pow2_le. lia. }
    nia.
Qed.

Ltac by_compare :=
  symmetry;
  first [ apply Z.compare_eq_iff; lia
        | apply Z.compare_lt_iff; lia
        | apply Z.compare_gt_iff; lia ].

Lemma SFcompare_ev (x y : spec_float) :
  valid_binary x = true -> valid_binary y = true ->
  x <> S754_nan -> y <> S754_nan ->
  SFcompare x y = Some (ev x ?= ev y).
Proof.
  intros Vx Vy Nx Ny. pose proof big_pos as B.
  destruct x as [sx|sx| |sx mx ex]; try congruence;
    destruct y as [sy|sy| |sy my ey]; try congruence;
    cbn [SpecFloat.valid_binary] in Vx, Vy; cbn [SFcompare ev]; f_equal;
    try (destruct (rnd_pos_exact mx ex Vx) as [_ Fx];
         pose proof (scaled_pos mx ex ltac:(destruct (bounded_facts mx ex Vx); lia)));
    try (destruct (rnd_pos_exact my ey Vy) as [_ Fy];
         pose proof (scaled_pos my ey ltac:(destruct (bounded_facts my ey Vy); lia)));
    try (destruct sx; cbn [cond_Zopp]); try (destruct sy; cbn [cond_Zopp]);
    try by_compare.
  - replace (match ex ?= ey with
             | Eq => CompOpp (PosDef.Pos.compare_cont Eq mx my)
             | Lt => Gt
             | Gt => Lt
             end)
      with (CompOpp (match ex ?= ey with
                     | Eq => PosDef.Pos.compare_cont Eq mx my
                     | Lt => Lt
                     | Gt => Gt
                     end)) by (destruct (ex ?= ey); reflexivity).
    rewrite (mag_compare _ _ _ _ Vx Vy).
    destruct (Z.compare_spec (scaled (Zpos mx) ex) (scaled (Zpos my) ey));
      cbn [CompOpp]; by_compare.
  - apply (mag_compare _ _ _ _ Vx Vy).
Qed.

Lemma SFleb_ev (x y : spec_float) :
  valid_binary x = true -> valid_binary y = true ->
  x <> S754_nan -> y <> S754_nan ->
  SFleb x y = (ev x <=? ev y).
Proof.
  intros Vx Vy Nx Ny. unfold SFleb, Z.leb.
  rewrite SFcompare_ev by assumption. now destruct (ev x ?= ev y).
Qed.

Lemma SFltb_ev (x y : spec_float) :
  valid_binary x = true -> valid_binary y = true ->
  x <> S754_nan -> y <> S754_nan ->
  SFltb x y = (ev x <? ev y).
Proof.
  intros Vx Vy Nx Ny. unfold SFltb, Z.ltb.
  rewrite SFcompare_ev by assumption. now destruct (ev x ?= ev y).
Qed.

(** ** Addition *)

Lemma ev_finite_range (s : bool) (m : positive) (e : Z) :
  bounded prec emax m e = true ->
  - big < ev (S754_finite s m e) < big /\ ev (S754_finite s m e) <> 0.
Proof.
  intros B. destruct (rnd_pos_exact m e B) as [_ F].
  pose proof (scaled_pos m e ltac:(destruct (bounded_facts m e B); lia)).
  cbn [ev]. destruct s; cbn [cond_Zopp]; lia.
Qed.

Lemma rndZ_range (v : Z) : - big <= rndZ v <= big.
Proof.
  pose proof big_pos.
  destruct (Z.lt_trichotomy v 0) as [N|[->|P]].
  - rewrite rndZ_neg by lia. pose proof (rnd_pos_pos (- v)). lia.
  - cbn [rndZ]. lia.
  - rewrite rndZ_pos by lia. pose proof (rnd_pos_pos v). lia.
Qed.

Lemma rndZ_fixed (s : bool) (m : positive) (e : Z) :
  bounded prec emax m e = true ->
  rndZ (ev (S754_finite s m e)) = ev (S754_finite s m e).
Proof.
  intros B. destruct (rnd_pos_exact m e B) as [R F].
  pose proof (scaled_pos m e ltac:(destruct (bounded_facts m e B); lia)).
  cbn [ev]. destruct s; cbn [cond_Zopp].
  - rewrite rndZ_neg by lia. rewrite Z.opp_involutive, R. lia.
  - rewrite rndZ_pos by lia. rewrite R. lia.
Qed.

Lemma cond_Zopp_mul (s : bool) (a k : Z) : cond_Zopp s a * k = cond_Zopp s (a * k).
Proof. destruct s; cbn [cond_Zopp]; lia. Qed.

Lemma binary_normalize_spec (m e : Z) :
  -1074 <= e ->
  let r := binary_normalize prec emax m e false in
  valid_binary r = true /\ r <> S754_nan /\ ev r = rndZ (scaled m e).
Proof.
  intros He r. subst r. destruct m as [|p|p]; cbn [binary_normalize].
  - split; [reflexivity|]. split; [discriminate|]. reflexivity.
  - pose proof (scaled_pos p e He) as P.
    destruct (rounds_to_ev _ _ _ (binary_round_spec false p e He)) as [V [N E]].
    split; [assumption|]. split; [assumption|].
    rewrite E, rndZ_pos by assumption. reflexivity.
  - pose proof (scaled_pos p e He) as P.
    destruct (rounds_to_ev _ _ _ (binary_round_spec true p e He)) as [V [N E]].
    split; [assumption|]. split; [assumption|].
    rewrite E. cbn [cond_Zopp].
    assert (S : scaled (Zneg p) e = - scaled (Zpos p) e) by (unfold scaled; lia).
    rewrite S, rndZ_neg by lia. now rewrite Z.opp_involutive.
Qed.

Lemma SFadd_finite (sx : bool) (mx : positive) (ex : Z) (sc : bool) (mc : positive)
    (ec : Z) :
  bounded prec emax mx ex = true -> bounded prec emax mc ec = true ->
  let r := SFadd prec emax (S754_finite sx mx ex) (S754_finite sc mc ec) in
  valid_binary r = true /\ r <> S754_nan /\
  ev r = rndZ (ev (S754_finite sx mx ex) + ev (S754_finite sc mc ec)).
Proof.
  intros Bx Bc r. subst r. cbn [SFadd].
  destruct (bounded_facts mx ex Bx) as [Hx _].
  destruct (bounded_facts mc ec Bc) as [Hc _].
  set (ez := Z.min ex ec).
  destruct (shl_align_spec mx ex ez) as [Fx _]; [unfold ez; lia|].
  destruct (shl_align_spec mc ec ez) as [Fc _]; [unfold ez; lia|].
  rewrite Fx, Fc.
  destruct (binary_normalize_spec
              (cond_Zopp sx (Zpos mx * 2 ^ (ex - ez)) +
               cond_Zopp sc (Zpos mc * 2 ^ (ec - ez))) ez) as [V [N E]];
    [unfold ez; lia|].
  split; [assumption|]. split; [assumption|].
  rewrite E. f_equal. unfold scaled. cbn [ev]. unfold scaled.
  rewrite Z.mul_add_distr_r, !cond_Zopp_mul. f_equal; f_equal.
  - rewrite <- Z.mul_assoc, <- Z.pow_add_r by (unfold ez; lia).
    do 2 f_equal. lia.
  - rewrite <- Z.mul_assoc, <- Z.pow_add_r by (unfold ez; lia).
    do 2 f_equal. lia.
Qed.

(** The value of a sum that is not NaN. *)
Lemma ev_add (x c : spec_float) :
  valid_binary x = true -> valid_binary c = true ->
  SFadd prec emax x c <> S754_nan ->
  valid_binary (SFadd prec emax x c) = true /\
  match x, c with
  | S754_infinity s, _ | _, S754_infinity s => ev (SFadd prec emax x c) = cond_Zopp s big
  | _, _ => ev (SFadd prec emax x c) = rndZ (ev x + ev c)
  end.
Proof.
  intros Vx Vc N.
  destruct x as [sx|sx| |sx mx ex]; destruct c as [sc|sc| |sc mc ec];
    cbn [SFadd] in N |- *; try congruence.
  all: try (destruct (SFadd_finite sx mx ex sc mc ec Vx Vc) as [V [_ E]];
            cbn [SFadd] in V, E; split; assumption).
  all: try (destruct sx, sc; cbn [SFadd] in N |- *; try congruence;
            split; reflexivity).
  all: split; [first [assumption|reflexivity]|].
  all: try reflexivity.
  all: try (destruct sx; reflexivity).
  all: try (destruct sc; reflexivity).
  all: cbn [ev]; rewrite ?Z.add_0_l, ?Z.add_0_r; symmetry;
    change (rndZ (ev (S754_finite sc mc ec)) = ev (S754_finite sc mc ec)) ||
    change (rndZ (ev (S754_finite sx mx ex)) = ev (S754_finite sx mx ex));
    now apply rndZ_fixed.
Qed.

Ltac finite_ranges :=
  repeat match goal with
         | V : SpecFloat.valid_binary prec emax (S754_finite ?s ?m ?e) = true |- _ =>
             pose proof (ev_finite_range s m e V);
             pose proof (rndZ_fixed s m e V);
             revert V
         end;
  intros.

Lemma SFadd_nan_l (c : spec_float) : SFadd prec emax S754_nan c = S754_nan.
Proof. reflexivity. Qed.

Lemma SFadd_nan_r (x : spec_float) : SFadd prec emax x S754_nan = S754_nan.
Proof. destruct x; reflexivity. Qed.

(** Adding the same float to both sides keeps the order. *)
Lemma SFadd_mono (x y c : spec_float) :
  valid_binary x = true -> valid_binary y = true -> valid_binary c = true ->
  SFleb x y = true ->
  SFadd prec emax x c <> S754_nan -> SFadd prec emax y c <> S754_nan ->
  SFleb (SFadd prec emax x c) (SFadd prec emax y c) = true.
Proof.
  intros Vx Vy Vc L Nx Ny.
  assert (Hx : x <> S754_nan) by (intros ->; now apply Nx).
  assert (Hy : y <> S754_nan) by (intros ->; now apply Ny).
  destruct (ev_add x c Vx Vc Nx) as [Vrx Ex].
  destruct (ev_add y c Vy Vc Ny) as [Vry Ey].
  rewrite SFleb_ev in L |- * by assumption.
  apply Z.leb_le in L. apply Z.leb_le.
  pose proof (rndZ_mono (ev x + ev c) (ev y + ev c)) as M.
  pose proof (rndZ_range (ev x + ev c)) as Rx.
  pose proof (rndZ_range (ev y + ev c)) as Ry.
  pose proof big_pos as B.
  destruct x as [sx|sx| |sx mx ex]; try congruence;
    destruct y as [sy|sy| |sy my ey]; try congruence;
    destruct c as [sc|sc| |sc mc ec]; try (now rewrite SFadd_nan_r in Nx);
    finite_ranges;
    try (destruct sx); try (destruct sy); try (destruct sc);
    cbn [SFadd] in Nx, Ny; try congruence;
    cbn [ev cond_Zopp] in *; lia.
Qed.

(** Adding a non-negative float does not go below the start. *)
Lemma SFadd_nonneg (x a : spec_float) :
  valid_binary x = true -> valid_binary a = true ->
  SFleb (S754_zero false) a = true ->
  SFadd prec emax x a <> S754_nan ->
  SFleb x (SFadd prec emax x a) = true.
Proof.
  intros Vx Va L N.
  assert (Hx : x <> S754_nan) by (intros ->; now apply N).
  assert (Ha : a <> S754_nan) by (intros ->; discriminate L).
  destruct (ev_add x a Vx Va N) as [Vr E].
  rewrite SFleb_ev in L |- * by (assumption || reflexivity || discriminate).
  apply Z.leb_le in L. apply Z.leb_le.
  pose proof (rndZ_mono (ev x) (ev x + ev a)) as M.
  pose proof (rndZ_range (ev x + ev a)) as R.
  pose proof big_pos as B.
  destruct x as [sx|sx| |sx mx ex]; try congruence;
    destruct a as [sa|sa| |sa ma ea]; try congruence;
    finite_ranges;
    try (destruct sx); try (destruct sa);
    cbn [SFadd] in N; try congruence;
    cbn [ev cond_Zopp rndZ] in *; lia.
Qed.

(** ** The kernel's floats *)

Lemma SFeqb_refl (x : spec_float) : x <> S754_nan -> SFeqb x x = true.
Proof.
  unfold SFeqb. destruct x as [s|s| |s m e]; try congruence; intros _; cbn [SFcompare].
  - reflexivity.
  - now destruct s.
  - destruct s; rewrite Z.compare_refl;
      change (PosDef.Pos.compare_cont Eq m m) with (Pos.compare m m);
      now rewrite Pos.compare_refl.
Qed.

Lemma is_nan_spec (f : float) :
  PrimFloat.is_nan f = true <-> Prim2SF f = S754_nan.
Proof.
  unfold PrimFloat.is_nan. rewrite eqb_spec. split.
  - intros H. destruct (Prim2SF f) eqn:E; auto;
      rewrite SFeqb_refl in H by discriminate; discriminate.
  - intros ->. reflexivity.
Qed.

Lemma is_nan_false (f : float) :
  PrimFloat.is_nan f = false <-> Prim2SF f <> S754_nan.
Proof.
  rewrite <- is_nan_spec. destruct (PrimFloat.is_nan f); split; congruence.
Qed.

Theorem add_nan (x c : float) :
  PrimFloat.is_nan x = true -> PrimFloat.is_nan (x + c) = true.
Proof.
  rewrite !is_nan_spec, add_spec. intros ->. reflexivity.
Qed.

Theorem add_mono (x y c : float) :
  (x <=? y)%float = true ->
  PrimFloat.is_nan (x + c) = false -> PrimFloat.is_nan (y + c) = false ->
  (x + c <=? y + c)%float = true.
Proof.
  rewrite !is_nan_false, !leb_spec, !add_spec.
  apply SFadd_mono; apply Prim2SF_valid.
Qed.

Theorem add_nonneg (x a : float) :
  (0 <=? a)%float = true ->
  PrimFloat.is_nan (x + a) = false ->
  (x <=? x + a)%float = true.
Proof.
  rewrite !is_nan_false, !leb_spec, !add_spec.
  apply SFadd_nonneg; apply Prim2SF_valid.
Qed.

Lemma SFltb_nan (x y : spec_float) :
  x = S754_nan \/ y = S754_nan -> SFltb x y = false.
Proof. intros [-> | ->]; [|destruct x]; reflexivity. Qed.

(** A float that is not below another, NaN aside, is never above it. *)
Theorem never_below (x y : float) :
  (PrimFloat.is_nan x = false -> PrimFloat.is_nan y = false ->
   (x <=? y)%float = true) ->
  (y <? x)%float = false.
Proof.
  rewrite !is_nan_false, leb_spec, ltb_spec. intros H.
  destruct (Prim2SF x) eqn:Ex; try (apply SFltb_nan; now right);
    destruct (Prim2SF y) eqn:Ey; try (apply SFltb_nan; now left).
  all: rewrite <- Ex, <- Ey in *.
  all: assert (Nx : Prim2SF x <> S754_nan) by (rewrite Ex; discriminate).
  all: assert (Ny : Prim2SF y <> S754_nan) by (rewrite Ey; discriminate).
  all: specialize (H Nx Ny).
  all: rewrite SFleb_ev in H by (assumption || apply Prim2SF_valid).
  all: rewrite SFltb_ev by (assumption || apply Prim2SF_valid).
  all: apply Z.leb_le in H; apply Z.ltb_ge; exact H.
Qed.

Theorem add_nan_r (x c : float) :
  PrimFloat.is_nan c = true -> PrimFloat.is_nan (x + c) = true.
Proof.
  rewrite !is_nan_spec, add_spec. intros ->. apply SFadd_nan_r.
Qed.

(** ** The sign of a product *)

Lemma binary_round_aux_sign (s : bool) (m e : Z) (l : location) :
  let r := binary_round_aux prec emax s m e l in
  r = S754_nan \/ r = S754_zero s \/ r = S754_infinity s \/
  exists m' e', r = S754_finite s m' e'.
Proof.
  unfold binary_round_aux.
  destruct (shr_fexp prec emax m e l) as [mrs' e'].
  destruct (shr_fexp prec emax _ e' loc_Exact) as [mrs'' e''].
  destruct (shr_m mrs'') as [|p|p]; cbn zeta; auto.
  destruct (e'' <=? emax - prec); eauto 6.
Qed.

Lemma SFmul_nonneg (x y : spec_float) :
  SFleb (S754_zero false) x = true -> SFleb (S754_zero false) y = true ->
  SFmul prec emax x y <> S754_nan ->
  SFleb (S754_zero false) (SFmul prec emax x y) = true.
Proof.
  intros Lx Ly N.
  destruct x as [sx|sx| |sx mx ex]; try discriminate Lx;
    destruct y as [sy|sy| |sy my ey]; try discriminate Ly;
    cbn [SFmul] in N |- *; try congruence; try reflexivity;
    try (destruct sx; try discriminate Lx); try (destruct sy; try discriminate Ly);
    try reflexivity.
  cbn [xorb] in *.
  destruct (binary_round_aux_sign false (Zpos (mx * my)) (ex + ey) loc_Exact)
    as [E|[E|[E|[m' [e' E]]]]]; cbn zeta in E; rewrite E in N |- *;
    try congruence; reflexivity.
Qed.

Theorem mul_nonneg (p q : float) :
  (0 <=? p)%float = true -> (0 <=? q)%float = true ->
  PrimFloat.is_nan (p * q) = false ->
  (0 <=? p * q)%float = true.
Proof.
  rewrite !is_nan_false, !leb_spec, !mul_spec.
  apply SFmul_nonneg.
Qed.

End Binary64.

(** * Integers in binary64

    Up to 2^53 in magnitude every integer is a float, and sums and
    products of such floats that stay within that range are exact. *)
Module Exact64.

Import Binary64.

Local Open Scope Z_scope.

Definition unit64 : Z := 2 ^ 1074.

Lemma unit64_pos : 0 < unit64.
Proof. reflexivity. Qed.

Lemma rnd_pos_int (z : Z) : 0 < z <= 2 ^ 53 -> rnd_pos (z * unit64) = z * unit64.
Proof.
  intros [P U]. destruct (Z.eq_dec z (2 ^ 53)) as [->|N]; [now vm_compute|].
  assert (L : 0 <= Z.log2 z <= 52).
  { split; [apply Z.log2_nonneg|].
    assert (Z.log2 z < 53); [|lia]. apply Z.log2_lt_pow2; lia. }
  assert (S : shift_of (z * unit64) = Z.log2 z + 1022).
  { unfold shift_of, unit64. rewrite Z.log2_mul_pow2 by lia. lia. }
  rewrite (rnd_pos_intro (z * unit64) (z * 2 ^ (52 - Z.log2 z)) 0 (Z.log2 z + 1022)).
  - rewrite up_zero by (apply pow2_pos; lia). cbn [Z.b2z].
    rewrite Z.add_0_r, <- Z.mul_assoc, <- Z.pow_add_r by lia.
    unfold unit64. do 2 f_equal. lia.
  - now rewrite S.
  - rewrite Z.add_0_r, <- Z.mul_assoc, <- Z.pow_add_r by lia.
    unfold unit64. do 2 f_equal. lia.
  - split; [lia|]. apply pow2_pos. lia.
Qed.

Lemma int_below_big (z : Z) : Z.abs z <= 2 ^ 53 -> Z.abs (z * unit64) < big.
Proof.
  intros H. rewrite Z.abs_mul. unfold unit64, big.
  change (2 ^ 2098) with (2 ^ 1024 * 2 ^ 1074).
  rewrite (Z.abs_eq (2 ^ 1074)) by (apply Z.pow_nonneg; lia).
  apply Z.mul_lt_mono_pos_r; [reflexivity|].
  apply Z.le_lt_trans with (2 ^ 53); [assumption|reflexivity].
Qed.

Lemma rndZ_int (z : Z) : Z.abs z <= 2 ^ 53 -> rndZ (z * unit64) = z * unit64.
Proof.
  intros H. pose proof (int_below_big z H) as B. pose proof unit64_pos as U.
  destruct (Z.lt_trichotomy z 0) as [N|[->|P]].
  - rewrite rndZ_neg by nia.
    replace (- (z * unit64)) with ((- z) * unit64) by lia.
    rewrite rnd_pos_int by lia. lia.
  - reflexivity.
  - rewrite rndZ_pos by nia. rewrite rnd_pos_int by lia. lia.
Qed.

(** What [binary_normalize] makes of a small integer. *)
Lemma norm_int (z : Z) :
  Z.abs z <= 2 ^ 53 ->
  let r := binary_normalize prec emax z 0 false in
  valid_binary r = true /\ r <> S754_nan /\ ev r = z * unit64 /\
  (z = 0 -> r = S754_zero false).
Proof.
  intros H r. destruct (binary_normalize_spec z 0 ltac:(lia)) as [V [N E]].
  fold r in V, N, E. repeat split; auto.
  - rewrite E. unfold scaled. now apply rndZ_int.
  - intros ->. reflexivity.
Qed.

(** A float that is not NaN and not zero is known by its value. *)
Lemma ev_inj (x y : spec_float) :
  valid_binary x = true -> valid_binary y = true ->
  x <> S754_nan -> y <> S754_nan ->
  ev x = ev y -> ev x <> 0 -> x = y.
Proof.
  intros Vx Vy Nx Ny E NZ. pose proof big_pos as B.
  destruct x as [sx|sx| |sx mx ex]; try congruence; try (now cbn in NZ);
    destruct y as [sy|sy| |sy my ey]; try congruence;
    try (rewrite <- E in NZ || rewrite E in NZ; now cbn in NZ);
    finite_ranges; cbn [ev] in *.
  - destruct sx, sy; cbn [cond_Zopp] in E; try reflexivity; lia.
  - destruct sx; cbn [cond_Zopp] in *; lia.
  - destruct sy; cbn [cond_Zopp] in *; lia.
  - pose proof (scaled_pos mx ex ltac:(destruct (bounded_facts mx ex Vx); lia)).
    pose proof (scaled_pos my ey ltac:(destruct (bounded_facts my ey Vy); lia)).
    assert (S : sx = sy) by (destruct sx, sy; cbn [cond_Zopp] in E; try reflexivity; lia).
    subst sy.
    assert (M : scaled (Zpos mx) ex = scaled (Zpos my) ey)
      by (destruct sx; cbn [cond_Zopp] in E; lia).
    pose proof (mag_compare mx my ex ey Vx Vy) as C.
    rewrite M, Z.compare_refl in C.
    destruct (ex ?= ey) eqn:Ce; try discriminate.
    apply Z.compare_eq in Ce. subst ey.
    change (PosDef.Pos.compare_cont Eq mx my) with (Pos.compare mx my) in C.
    apply Pos.compare_eq in C. now subst my.
Qed.






Lemma Prim2SF_of_Z (z : Z) :
  Z.abs z <= 2 ^ 53 ->
  Prim2SF (of_Z z) = binary_normalize prec emax z 0 false.
Proof.
  intros H. unfold of_Z. apply Prim2SF_SF2Prim. now destruct (norm_int z H).
Qed.


(** The floats of small integers are ordered as the integers are. *)
Theorem of_Z_leb (a b : Z) :
  Z.abs a <= 2 ^ 53 -> Z.abs b <= 2 ^ 53 ->
  (of_Z a <=? of_Z b)%float = (a <=? b).
Proof.
  intros Ha Hb. rewrite leb_spec, !Prim2SF_of_Z by assumption.
  destruct (norm_int a Ha) as [Va [Na [Ea _]]].
  destruct (norm_int b Hb) as [Vb [Nb [Eb _]]].
  rewrite SFleb_ev by assumption. rewrite Ea, Eb.
  pose proof unit64_pos.
  destruct (Z.leb_spec a b); [apply Z.leb_le|apply Z.leb_gt]; nia.
Qed.



Theorem float_of_int_small (z : Z) :
  Z.abs z <= 2 ^ 53 -> float_of_int z = Ok (of_Z z).
Proof.
  intros H. unfold float_of_int, of_Z.
  destruct (norm_int z H) as [V [N [E _]]].
  pose proof (int_below_big z H) as B.
  destruct (binary_normalize prec emax z 0 false) as [s|s| |s m e]; try reflexivity.
  cbn [ev] in E. pose proof big_pos. destruct s; cbn [cond_Zopp] in E; lia.
Qed.

(** ** Floats that are equal *)

(** Two floats that [==] holds of are the same float, or two zeros. *)
Lemma SFeqb_cases (x y : spec_float) :
  valid_binary x = true -> valid_binary y = true ->
  SFeqb x y = true ->
  x = y \/ exists sx sy, x = S754_zero sx /\ y = S754_zero sy.
Proof.
  intros Vx Vy E.
  assert (Nx : x <> S754_nan) by (intros ->; discriminate E).
  assert (Ny : y <> S754_nan) by (intros ->; destruct x; discriminate E).
  unfold SFeqb in E. rewrite SFcompare_ev in E by assumption.
  destruct (ev x ?= ev y) eqn:C; try discriminate. apply Z.compare_eq in C.
  destruct (Z.eq_dec (ev x) 0) as [Z0|NZ]; [|left; now apply ev_inj].
  right. rewrite Z0 in C. symmetry in C. pose proof big_pos as B.
  destruct x as [sx|sx| |sx mx ex]; try congruence;
    try (cbn [ev] in Z0; destruct sx; cbn [cond_Zopp] in Z0; lia);
    try (destruct (ev_finite_range sx mx ex Vx) as [_ F]; congruence).
  destruct y as [sy|sy| |sy my ey]; try congruence;
    try (cbn [ev] in C; destruct sy; cbn [cond_Zopp] in C; lia);
    try (destruct (ev_finite_range sy my ey Vy) as [_ F]; congruence).
  eauto.
Qed.

(** Equal floats plus the same float are equal floats, or both NaN. *)
Lemma SFadd_eqb (x y c : spec_float) :
  valid_binary x = true -> valid_binary y = true ->
  SFeqb x y = true ->
  SFadd prec emax x c = SFadd prec emax y c \/
  exists sx sy, SFadd prec emax x c = S754_zero sx /\
                SFadd prec emax y c = S754_zero sy.
Proof.
  intros Vx Vy E.
  destruct (SFeqb_cases x y Vx Vy E) as [->|[sx [sy [-> ->]]]]; [now left|].
  destruct c as [sc|sc| |sc mc ec]; cbn [SFadd]; auto.
  right. destruct sx, sy, sc; eauto.
Qed.

(** A finite float times a zero is a zero. *)
Lemma SFmul_zero (p q : spec_float) :
  valid_binary p = true -> valid_binary q = true ->
  SFeqb q (S754_zero false) = true ->
  SFmul prec emax p q <> S754_nan ->
  exists s, SFmul prec emax p q = S754_zero s.
Proof.
  intros Vp Vq E N.
  destruct (SFeqb_cases q (S754_zero false) Vq eq_refl E) as [->|[sq [sz [-> _]]]];
    destruct p as [sp|sp| |sp mp ep]; cbn [SFmul] in N |- *; try congruence; eauto.
Qed.

(** A zero added to a float gives an equal float. *)
Lemma SFadd_zero (x : spec_float) (s : bool) :
  x <> S754_nan -> SFeqb (SFadd prec emax x (S754_zero s)) x = true.
Proof.
  intros N. destruct x as [sx|sx| |sx mx ex]; try congruence; cbn [SFadd].
  - now destruct sx, s.
  - now apply SFeqb_refl.
  - now apply SFeqb_refl.
Qed.

Lemma alike_refl (x : float) : alike x x.
Proof.
  unfold alike. destruct (PrimFloat.is_nan x) eqn:E; [now right|left].
  rewrite eqb_spec. apply SFeqb_refl. now apply is_nan_false.
Qed.

Lemma alike_sym (x y : float) : alike x y -> alike y x.
Proof.
  intros [E|[Nx Ny]]; [left|right; auto].
  rewrite eqb_spec in E |- *.
  destruct (SFeqb_cases _ _ (Prim2SF_valid x) (Prim2SF_valid y) E)
    as [S|[sx [sy [Sx Sy]]]].
  - rewrite S in E |- *. exact E.
  - now rewrite Sx, Sy.
Qed.

Theorem alike_add (x y c : float) : alike x y -> alike (x + c) (y + c).
Proof.
  intros [E|[Nx Ny]].
  - rewrite eqb_spec in E.
    destruct (SFadd_eqb (Prim2SF x) (Prim2SF y) (Prim2SF c)
                (Prim2SF_valid x) (Prim2SF_valid y) E) as [S|[sx [sy [Sx Sy]]]].
    + rewrite <- !add_spec in S. apply Prim2SF_inj in S. rewrite S. apply alike_refl.
    + left. change (SF64add (Prim2SF x) (Prim2SF c) = S754_zero sx) in Sx.
      change (SF64add (Prim2SF y) (Prim2SF c) = S754_zero sy) in Sy.
      rewrite <- add_spec in Sx, Sy. now rewrite eqb_spec, Sx, Sy.
  - right. split; now apply add_nan.
Qed.

(** Adding the product of a price by a quantity that is zero, when the
    product is not NaN (the price is finite), gives an equal float. *)
Theorem alike_add_zero (x p q : float) :
  (q =? 0)%float = true ->
  PrimFloat.is_nan (p * q) = false ->
  alike (x + p * q) x.
Proof.
  intros Q N. rewrite eqb_spec in Q. apply is_nan_false in N. rewrite mul_spec in N.
  destruct (SFmul_zero (Prim2SF p) (Prim2SF q) (Prim2SF_valid p) (Prim2SF_valid q) Q N)
    as [s Z0].
  unfold alike. destruct (PrimFloat.is_nan x) eqn:E.
  - right. split; auto. now apply add_nan.
  - left. rewrite eqb_spec, add_spec, mul_spec. unfold SF64add, SF64mul.
    rewrite Z0. apply SFadd_zero. now apply is_nan_false.
Qed.

(** ** The amount of the summary *)



End Exact64.

(** * Facts *)

(** ** Dictionaries *)

Lemma key_eqb_refl (k : pykey) : key_eqb k k = true.
Proof. unfold key_eqb. destruct (pykey_eq_dec k k); congruence. Qed.

Lemma key_eqb_eq (a b : pykey) : key_eqb a b = true <-> a = b.
Proof. unfold key_eqb. destruct (pykey_eq_dec a b); split; congruence. Qed.

Lemma key_eqb_neq (a b : pykey) : key_eqb a b = false <-> a <> b.
Proof. unfold key_eqb. destruct (pykey_eq_dec a b); split; congruence. Qed.

Lemma dict_get_set_same (d : pdict) (k : pykey) (v : float) :
  dict_get (dict_set d k v) k = Some v.
Proof.
  induction d as [|[k' v'] d IH]; simpl.
  - now rewrite key_eqb_refl.
  - destruct (key_eqb k' k) eqn:E; simpl; rewrite E; auto.
Qed.

Lemma dict_get_set_other (d : pdict) (k k' : pykey) (v : float) :
  k <> k' -> dict_get (dict_set d k v) k' = dict_get d k'.
Proof.
  intros N. induction d as [|[k0 v0] d IH]; simpl.
  - apply key_eqb_neq in N. now rewrite N.
  - destruct (key_eqb k0 k) eqn:E; simpl.
    + apply key_eqb_eq in E. subst k0. apply key_eqb_neq in N. now rewrite N.
    + destruct (key_eqb k0 k'); auto.
Qed.

Lemma dict_set_len_new (d : pdict) (k : pykey) (v : float) :
  dict_get d k = None -> dict_len (dict_set d k v) = S (dict_len d).
Proof.
  unfold dict_len. induction d as [|[k' v'] d IH]; simpl; intros H; auto.
  destruct (key_eqb k' k); [discriminate|]. simpl. now rewrite IH.
Qed.

(** ** Coercion *)

Lemma float_of_int_raises (z : Z) (e : exn) :
  float_of_int z = Raise e -> e = OverflowError.
Proof.
  unfold float_of_int.
  destruct (binary_normalize prec emax z 0 false); congruence.
Qed.

Section Steps.

Variable float_of_str : string -> option float.


(** [float] raises only what the handler of a loop body catches, or
    [OverflowError] on an [int]. *)
Lemma py_float_raises (v : value) (e : exn) :
  (py_float float_of_str) v = Raise e ->
  caught_by_entry_handler e = true \/
  (e = OverflowError /\ exists z, v = VInt z /\ int_fits z = false).
Proof.
  destruct v; simpl; try (intros [= <-]; now left); try discriminate.
  - intros H. right. split; [eapply float_of_int_raises; eauto|].
    exists z. split; auto. unfold int_fits. now rewrite H.
  - destruct (float_of_str s); [discriminate|]. intros [= <-]. now left.
Qed.

Lemma overflows_float (k : string) (fields : list (string * value))
    (product raw : value) :
  lookup "product" fields = Some product ->
  lookup k fields = Some raw ->
  overflows k (VDict fields) =
  match (py_float float_of_str) raw with
  | Ok _ => false
  | Raise e => negb (caught_by_entry_handler e)
  end.
Proof.
  intros P Q. unfold overflows. rewrite P, Q.
  destruct raw; simpl; auto.
  - unfold int_fits. destruct (float_of_int z) as [f|e] eqn:F; auto.
    now rewrite (float_of_int_raises _ _ F).
  - now destruct (float_of_str s).
Qed.

(** One line item: it adds its amount, or is skipped with one warning, or
    the conversion of its quantity overflows and the exception escapes. *)
Lemma sale_item_cases (item : value) (total : float) (s : state) :
  (exists a, (item_amount float_of_str) (dict_obj s) item = Some a /\
             (sale_item_body float_of_str) item total s = (Ok (total + a)%float, s))
  \/ (exists t, (item_amount float_of_str) (dict_obj s) item = None /\
                overflows "quantity" item = false /\
                (sale_item_body float_of_str) item total s = (Ok total, after_print s t))
  \/ (item_amount float_of_str (dict_obj s) item = None /\
      overflows "quantity" item = true /\
      (sale_item_body float_of_str) item total s = (Raise OverflowError, s)).
Proof.
  unfold sale_item_body, try_except, bind, lift, ret, py_print, after_print,
    dict_contains, dict_fetch.
  destruct item as [| | | | |l|fields];
    try (right; left; eexists; repeat split; reflexivity).
  unfold item_amount, item_terms, getitem.
  destruct (lookup "product" fields) as [product|] eqn:P;
    [|right; left; eexists; repeat split; simpl; now rewrite ?P].
  destruct (lookup "quantity" fields) as [raw|] eqn:Q;
    [|right; left; eexists; repeat split; simpl; now rewrite ?P, ?Q].
  rewrite (overflows_float _ _ _ _ P Q).
  destruct (py_float float_of_str raw) as [q|e] eqn:F; simpl.
  - destruct (dict_key product) as [k|]; simpl;
      [|right; left; eexists; repeat split; reflexivity].
    destruct (dict_get (dict_obj s) k) as [price|] eqn:G; simpl; rewrite ?G; simpl.
    + left. eexists; split; reflexivity.
    + right; left. eexists; repeat split; reflexivity.
  - destruct (py_float_raises _ _ F) as [C|[-> _]].
    + rewrite C. right; left. eexists; repeat split; reflexivity.
    + simpl. right; right. auto.
Qed.

(** The pure reading of one line item is what its body returns; the body
    leaves the dictionary and the results file alone, and only adds to
    what is printed. *)
Lemma sale_item_run (item : value) (total : float) (s : state) :
  exists out,
    (sale_item_body float_of_str) item total s =
    (item_result float_of_str (dict_obj s) item total,
     State (dict_obj s) (stdout s ++ out) (results_file s)).
Proof.
  unfold item_result.
  destruct (sale_item_cases item total s)
    as [[a [-> ->]]|[[t [-> [-> ->]]]|[-> [-> ->]]]].
  - exists []. rewrite app_nil_r. now destruct s.
  - exists [t]. reflexivity.
  - exists []. rewrite app_nil_r. now destruct s.
Qed.

Lemma for_each_reads_only {A B : Type} (body : A -> B -> M B)
    (f : pdict -> A -> B -> result B) :
  reads_only body f ->
  forall l acc s, exists out,
    for_each body l acc s =
    (fold_result (f (dict_obj s)) l acc,
     State (dict_obj s) (stdout s ++ out) (results_file s)).
Proof.
  intros R l. induction l as [|x l IH]; intros acc s; simpl.
  - exists []. rewrite app_nil_r. now destruct s.
  - unfold bind. destruct (R x acc s) as [out ->].
    destruct (f (dict_obj s) x acc) as [acc'|e].
    + destruct (IH acc' (State (dict_obj s) (stdout s ++ out) (results_file s)))
        as [out' ->]. simpl.
      exists (out ++ out'). now rewrite app_assoc.
    + now exists out.
Qed.

Lemma sale_item_reads_only :
  reads_only (sale_item_body float_of_str) (item_result float_of_str).
Proof. intros item total s. apply sale_item_run. Qed.

Lemma sale_reads_only : reads_only (sale_body float_of_str) (sale_result float_of_str).
Proof.
  intros sale total s. unfold sale_body, bind, lift, sale_result.
  destruct sale as [| | | | |l|fields]; simpl;
    try (exists []; rewrite app_nil_r; now destruct s).
  destruct (lookup "items" fields) as [items|]; simpl.
  - destruct items as [| | | | |l|d];
      try (eexists [_]; reflexivity).
    apply (for_each_reads_only _ _ sale_item_reads_only).
  - exists []. rewrite app_nil_r. now destruct s.
Qed.

(** The whole aggregation over a list of transactions: the pure reading
    is what it returns, the dictionary it was given is the dictionary it
    leaves, and it only prints. *)
Lemma compute_total_sales_run (sales : list value) (d : pdict) (s : state) :
  exists out,
    compute_total_sales float_of_str (VList sales) d s =
    (sales_result float_of_str d sales 0%float,
     State d (stdout s ++ out) (results_file s)).
Proof.
  unfold compute_total_sales, bind, dict_bind, lift. simpl.
  destruct (for_each_reads_only _ _ sale_reads_only sales 0%float
              (State d (stdout s) (results_file s))) as [out ->].
  now exists out.
Qed.

(** ** The pure reading against the sum of the specification *)

Lemma fold_result_app {A B : Type} (f : A -> B -> result B) (xs ys : list A) (acc : B) :
  fold_result f (xs ++ ys) acc =
  match fold_result f xs acc with
  | Ok acc' => fold_result f ys acc'
  | Raise e => Raise e
  end.
Proof.
  revert acc. induction xs as [|x xs IH]; intros acc; simpl; auto.
  destruct (f x acc); auto.
Qed.

Lemma items_result_sum (d : pdict) (items : list value) (total t : float) :
  fold_result (item_result float_of_str d) items total = Ok t ->
  t = total_from float_of_str d items total.
Proof.
  revert total. induction items as [|item items IH]; intros total; simpl.
  - now intros [= <-].
  - unfold item_result at 1, total_from, add_item at 2. simpl.
    destruct (item_amount float_of_str d item) as [a|].
    + apply IH.
    + destruct (overflows "quantity" item); [discriminate|apply IH].
Qed.


Lemma total_from_app (d : pdict) (xs ys : list value) (total : float) :
  total_from float_of_str d (xs ++ ys) total =
  total_from float_of_str d ys (total_from float_of_str d xs total).
Proof. unfold total_from. apply fold_left_app. Qed.

Lemma sales_result_sum (d : pdict) (sales : list value) (total t : float) :
  sales_result float_of_str d sales total = Ok t ->
  t = total_from float_of_str d (line_items sales) total.
Proof.
  unfold sales_result, line_items.
  revert total t. induction sales as [|sale sales IH]; intros total t; simpl.
  - now intros [= <-].
  - rewrite total_from_app.
    destruct (sale_result float_of_str d sale total) as [t'|e] eqn:E; [|discriminate].
    intros H. apply IH in H. rewrite H. f_equal.
    unfold sale_result in E. destruct sale; try discriminate.
    now apply items_result_sum.
Qed.


Lemma for_each_app {A B : Type} (body : A -> B -> M B) (xs ys : list A) (acc : B)
    (s : state) :
  for_each body (xs ++ ys) acc s =
  match for_each body xs acc s with
  | (Ok acc', s') => for_each body ys acc' s'
  | (Raise e, s') => (Raise e, s')
  end.
Proof.
  revert acc s. induction xs as [|x xs IH]; intros acc s; simpl; auto.
  unfold bind. destruct (body x acc s) as [[acc'|e] s']; auto.
Qed.

Lemma compute_total_sales_app (xs ys : list value) (d : pdict) (s : state) :
  compute_total_sales float_of_str (VList (xs ++ ys)) d s =
  match compute_total_sales float_of_str (VList xs) d s with
  | (Ok t, s') => for_each (sale_body float_of_str) ys t s'
  | (Raise e, s') => (Raise e, s')
  end.
Proof.
  unfold compute_total_sales, bind, dict_bind, lift. simpl. apply for_each_app.
Qed.

(** ** The catalogue loop *)

(** One catalogue entry: it is stored, or skipped with one warning, or the
    conversion of its price overflows and the exception escapes. *)
Lemma price_entry_cases (entry : value) (s : state) :
  (exists k price, (entry_binding float_of_str) entry = Some (k, price) /\
     (price_entry_body float_of_str) entry tt s =
     (Ok tt, State (dict_set (dict_obj s) k price) (stdout s) (results_file s)))
  \/ (exists t, (entry_binding float_of_str) entry = None /\
                overflows "price" entry = false /\
                (price_entry_body float_of_str) entry tt s = (Ok tt, after_print s t))
  \/ (entry_binding float_of_str entry = None /\
      overflows "price" entry = true /\
      (price_entry_body float_of_str) entry tt s = (Raise OverflowError, s)).
Proof.
  unfold price_entry_body, try_except, bind, lift,
    ret, py_print, after_print, dict_store.
  destruct entry as [| | | | |l|fields];
    try (right; left; eexists; repeat split; reflexivity).
  unfold entry_binding, getitem.
  destruct (lookup "product" fields) as [product|] eqn:P;
    [|right; left; eexists; repeat split; simpl; now rewrite ?P].
  destruct (lookup "price" fields) as [raw|] eqn:Q;
    [|right; left; eexists; repeat split; simpl; now rewrite ?P, ?Q].
  rewrite (overflows_float _ _ _ _ P Q).
  destruct (py_float float_of_str raw) as [q|e] eqn:F; simpl.
  - destruct (dict_key product) as [k|]; simpl.
    + left. do 2 eexists. split; reflexivity.
    + right; left. eexists; repeat split; reflexivity.
  - destruct (py_float_raises _ _ F) as [C|[-> _]].
    + rewrite C. right; left. eexists; repeat split; reflexivity.
    + simpl. right; right. auto.
Qed.

Lemma entries_loop_run (entries : list value) :
  forall s, exists out d',
    for_each (price_entry_body float_of_str) entries tt s =
    (match (entries_result float_of_str) entries (dict_obj s) with
     | Ok _ => Ok tt
     | Raise e => Raise e
     end, State d' (stdout s ++ out) (results_file s))
    /\ (forall d, (entries_result float_of_str) entries (dict_obj s) = Ok d -> d' = d).
Proof.
  unfold entries_result.
  induction entries as [|entry entries IH]; intros s; simpl.
  - exists [], (dict_obj s). rewrite app_nil_r. split; [now destruct s|].
    now intros d [= <-].
  - unfold bind, entry_result.
    destruct (price_entry_cases entry s)
      as [[k [price [-> ->]]]|[[t [-> [-> ->]]]|[-> [-> ->]]]].
    + destruct (IH (State (dict_set (dict_obj s) k price) (stdout s) (results_file s)))
        as [out [d' [-> H]]]. simpl in *. now exists out, d'.
    + destruct (IH (after_print s t)) as [out [d' [-> H]]]. simpl in *.
      exists (t :: out), d'. split; auto.
      now rewrite <- app_assoc.
    + exists [], (dict_obj s). rewrite app_nil_r. split; [now destruct s|].
      discriminate.
Qed.

(** Building the index over a list of entries returns the pure reading
    started from the empty dictionary. *)
Lemma build_price_dict_returns (entries : list value) (s : state) :
  returned (build_price_dict float_of_str (VList entries) s) =
  (entries_result float_of_str) entries [].
Proof.
  unfold build_price_dict, bind, dict_new, lift, dict_return, returned. simpl.
  destruct (entries_loop_run entries (State [] (stdout s) (results_file s)))
    as [out [d' [-> H]]]. simpl in *.
  destruct (entries_result float_of_str entries []) as [d|e]; simpl; auto.
  now rewrite (H d eq_refl).
Qed.

Lemma entries_result_keeps (post : list value) (k : pykey) :
  forall d1 d, (entries_result float_of_str) post d1 = Ok d ->
               ~ In k (entry_keys float_of_str post) ->
               dict_get d k = dict_get d1 k.
Proof.
  unfold entries_result, entry_keys.
  induction post as [|entry post IH]; intros d1 d; simpl.
  - now intros [= <-].
  - unfold entry_result at 1.
    destruct (entry_binding float_of_str entry) as [[k' price]|]; simpl.
    + intros H N. rewrite (IH _ _ H); [|tauto].
      apply dict_get_set_other. intros ->. tauto.
    + destruct (overflows "price" entry); [discriminate|]. apply IH.
Qed.

Lemma entries_result_last (pre post : list value) (entry : value)
    (k : pykey) (price : float) (d0 d : pdict) :
  (entry_binding float_of_str) entry = Some (k, price) ->
  ~ In k (entry_keys float_of_str post) ->
  (entries_result float_of_str) (pre ++ entry :: post) d0 = Ok d ->
  dict_get d k = Some price.
Proof.
  intros B N. unfold entries_result.
  rewrite fold_result_app.
  destruct (fold_result (entry_result float_of_str) pre d0) as [d1|e]; [|discriminate].
  simpl. unfold entry_result at 1. rewrite B.
  intros H. rewrite (entries_result_keeps _ _ _ _ H N).
  apply dict_get_set_same.
Qed.

Lemma entries_result_count (entries : list value) :
  forall d0,
    Forall (fun entry => (entry_binding float_of_str) entry <> None) entries ->
    NoDup (entry_keys float_of_str entries) ->
    (forall k, In k (entry_keys float_of_str entries) -> dict_get d0 k = None) ->
    exists d, (entries_result float_of_str) entries d0 = Ok d /\
              dict_len d = (dict_len d0 + List.length entries)%nat.
Proof.
  unfold entries_result, entry_keys.
  induction entries as [|entry entries IH]; intros d0 V N F; simpl.
  - exists d0. split; auto.
  - inversion V as [|? ? V1 V2]; subst.
    unfold entry_result at 1.
    simpl in N, F.
    destruct (entry_binding float_of_str entry) as [[k price]|]; [|congruence].
    simpl in N, F. inversion N as [|? ? N1 N2]; subst.
    destruct (IH (dict_set d0 k price) V2 N2) as [d [E L]].
    + intros k' I. rewrite dict_get_set_other; [auto|].
      intros ->. contradiction.
    + exists d. split; auto. rewrite L, dict_set_len_new; [lia|auto].
Qed.

(** ** A higher running total stays higher *)

Lemma not_below_add (t t' c : float) :
  not_below t t' -> not_below (t + c) (t' + c).
Proof.
  intros H N N'. apply Binary64.add_mono; auto.
  apply H.
  - destruct (PrimFloat.is_nan t) eqn:E; auto.
    now rewrite (Binary64.add_nan t c E) in N.
  - destruct (PrimFloat.is_nan t') eqn:E; auto.
    now rewrite (Binary64.add_nan t' c E) in N'.
Qed.

Lemma items_result_mono (d : pdict) (items : list value) :
  forall t t' r,
    not_below t t' ->
    fold_result (item_result float_of_str d) items t = Ok r ->
    exists r', fold_result (item_result float_of_str d) items t' = Ok r' /\
               not_below r r'.
Proof.
  induction items as [|item items IH]; intros t t' r B; simpl.
  - intros [= <-]. eauto.
  - unfold item_result at 1 3.
    destruct (item_amount float_of_str d item) as [a|].
    + apply IH. now apply not_below_add.
    + destruct (overflows "quantity" item); [discriminate|]. now apply IH.
Qed.

Lemma sales_result_mono (d : pdict) (sales : list value) :
  forall t t' r,
    not_below t t' ->
    sales_result float_of_str d sales t = Ok r ->
    exists r', sales_result float_of_str d sales t' = Ok r' /\ not_below r r'.
Proof.
  unfold sales_result.
  induction sales as [|sale sales IH]; intros t t' r B; simpl.
  - intros [= <-]. eauto.
  - destruct (sale_result float_of_str d sale t) as [t1|e] eqn:E; [|discriminate].
    intros H. unfold sale_result in E |- *. destruct sale; try discriminate.
    destruct (items_result_mono _ _ _ _ _ B E) as [t1' [-> B1]].
    now apply (IH t1 t1' r).
Qed.

(** Appending a valid, listed item to the items of a transaction: the
    loop over the later transactions starts from [t0 + amount] where it
    started from [t0], in the same state. *)
Lemma appended_item_run (d : pdict) (pre post : list value)
    (fields fields' : list (string * value)) (its : list value) (item : value)
    (amount t0 : float) (s s0 : state) :
  lookup "items" fields = Some (VList its) ->
  lookup "items" fields' = Some (VList (its ++ [item])) ->
  item_amount float_of_str d item = Some amount ->
  compute_total_sales float_of_str (VList (pre ++ [VDict fields])) d s = (Ok t0, s0) ->
  compute_total_sales float_of_str (VList (pre ++ VDict fields :: post)) d s
  = for_each (sale_body float_of_str) post t0 s0
  /\ compute_total_sales float_of_str (VList (pre ++ VDict fields' :: post)) d s
     = for_each (sale_body float_of_str) post (t0 + amount)%float s0.
Proof.
  intros L L' A H.
  assert (D : dict_obj s0 = d).
  { destruct (compute_total_sales_run (pre ++ [VDict fields]) d s)
      as [out E]. rewrite E in H. now inversion H. }
  split.
  - change (pre ++ VDict fields :: post) with (pre ++ [VDict fields] ++ post).
    now rewrite app_assoc, compute_total_sales_app, H.
  - change (pre ++ VDict fields' :: post) with (pre ++ [VDict fields'] ++ post).
    rewrite app_assoc, compute_total_sales_app.
    rewrite compute_total_sales_app in H |- *.
    destruct (compute_total_sales float_of_str (VList pre) d s) as [[t|e] s1];
      [|discriminate].
    simpl in H |- *. unfold bind in H |- *.
    unfold sale_body at 1, bind, lift, get_default in H.
    unfold sale_body at 1, bind, lift, get_default.
    rewrite L in H. rewrite L'. simpl in H |- *.
    rewrite for_each_app.
    destruct (for_each (sale_item_body float_of_str) its t s1) as [[t1|e] s2];
      [|discriminate].
    simpl in H. inversion H; subst t1 s2. simpl. unfold bind.
    destruct (sale_item_cases item t0 s0)
      as [[a [E ->]]|[[w [E _]]|[E _]]]; rewrite D, A in E;
      [|discriminate|discriminate].
    now inversion E.
Qed.

End Steps.

(** * The aggregator *)

(** C1 (the code departs from the claim): a line item whose quantity is the
    integer [10 ** 400] has a quantity that [float] cannot convert, so the
    claim counts it as invalid, contributing zero.  [float] raises
    [OverflowError] there, which the handler of the loop body does not
    list: the aggregation raises instead of returning a total. *)
Theorem C1_unconvertible_quantity_escapes :
  let prices := [(KStr "A", 10%float)] in
  let item := line_item "A" (VInt (10 ^ 400)) in
  py_float no_text (VInt (10 ^ 400)) = Raise OverflowError /\
  caught_by_entry_handler OverflowError = false /\
  item_amount no_text prices item = None /\
  returned (run (compute_total_sales no_text (VList [transaction [item]]) prices))
  = Raise OverflowError.
Proof. vm_compute. repeat split; reflexivity. Qed.

(** X1: whenever the aggregation of a list of transactions returns, it
    returns the sum the specification states: over the line items that
    have a product and a convertible quantity and whose product is in the
    price index, of price times quantity, added from [0.0] in the order of
    the data. *)
Theorem compute_total_sales_returns_sum (float_of_str : string -> option float)
    (sales : list value) (prices : pdict) (s : state) (t : float) :
  returned (compute_total_sales float_of_str (VList sales) prices s) = Ok t ->
  t = total_spec float_of_str prices sales.
Proof.
  destruct (compute_total_sales_run float_of_str sales prices s) as [out ->].
  unfold returned. simpl. apply sales_result_sum.
Qed.

Lemma compute_total_sales_returns_sum_witness :
  total_spec no_text [(KStr "A", 10%float)]
    [transaction [line_item "A" (VInt 2); line_item "B" (VInt 1); VInt 7]]
  = 20%float.
Proof.
  symmetry.
  apply (compute_total_sales_returns_sum no_text
           [transaction [line_item "A" (VInt 2); line_item "B" (VInt 1); VInt 7]]
           [(KStr "A", 10%float)] fresh 20%float).
  reflexivity.
Defined.






(** C3, as stated, fails for a missing [items] field: [get] then answers
    its default, the empty list, which is a list.  The transaction is
    skipped, and nothing is printed. *)
Lemma C3_counterexample :
  lookup "items" [("id", VInt 1)] = None /\
  run (compute_total_sales no_text (VList [VDict [("id", VInt 1)]]) [])
  = (Ok 0%float, fresh).
Proof. split; reflexivity. Qed.

(** C3 (amended): a transaction that is a record whose [items] field is
    present and is not a list makes the aggregation print
    [WARNING: Invalid items format in sale: <sale>], leaves the running
    total as it was, and the loop goes on with the next transaction.  A
    record with no [items] field is passed over the same way, silently. *)
Theorem C3_invalid_items_skipped (float_of_str : string -> option float)
    (pre post : list value) (fields : list (string * value)) (d : pdict) (s : state) :
  (forall items,
     lookup "items" fields = Some items -> is_list items = false ->
     compute_total_sales float_of_str (VList (pre ++ VDict fields :: post)) d s =
     match compute_total_sales float_of_str (VList pre) d s with
     | (Ok total, s') =>
         for_each (sale_body float_of_str) post total
           (after_print s' [Lit "WARNING: Invalid items format in sale: ";
                            Field (VDict fields) ""])
     | (Raise e, s') => (Raise e, s')
     end)
  /\ (lookup "items" fields = None ->
      compute_total_sales float_of_str (VList (pre ++ VDict fields :: post)) d s =
      match compute_total_sales float_of_str (VList pre) d s with
      | (Ok total, s') => for_each (sale_body float_of_str) post total s'
      | (Raise e, s') => (Raise e, s')
      end).
Proof.
  split; [intros items L N|intros L];
    rewrite compute_total_sales_app;
    destruct (compute_total_sales float_of_str (VList pre) d s) as [[total|e] s'];
    auto; simpl; unfold bind, sale_body at 1, bind, lift, get_default;
    rewrite L; simpl.
  - destruct items; try discriminate; reflexivity.
  - reflexivity.
Qed.

Lemma C3_invalid_items_skipped_witness :
  run (compute_total_sales no_text
         (VList [transaction [line_item "A" (VInt 2)];
                 VDict [("items", VStr "bad")];
                 transaction [line_item "A" (VInt 1)]])
         [(KStr "A", 10%float)])
  = (Ok 30%float,
     State [(KStr "A", 10%float)]
       [[Lit "WARNING: Invalid items format in sale: ";
         Field (VDict [("items", VStr "bad")]) ""]]
       None).
Proof.
  refine (eq_trans
            (proj1 (C3_invalid_items_skipped no_text
                      [transaction [line_item "A" (VInt 2)]]
                      [transaction [line_item "A" (VInt 1)]]
                      [("items", VStr "bad")] [(KStr "A", 10%float)] fresh)
               (VStr "bad") eq_refl eq_refl) _).
  reflexivity.
Defined.

(** C9: whatever the sales data, the dictionary the aggregation was given
    is the dictionary it leaves, also when it raises. *)
Theorem C9_price_index_unchanged (float_of_str : string -> option float)
    (sales_data : value) (prices : pdict) (s : state) :
  dict_after (compute_total_sales float_of_str sales_data prices s) = prices.
Proof.
  unfold dict_after, compute_total_sales, bind, dict_bind, lift.
  destruct (py_iter sales_data) as [sales|e]; simpl; auto.
  destruct (for_each_reads_only _ _ (sale_reads_only float_of_str) sales 0%float
              (State prices (stdout s) (results_file s))) as [out ->].
  reflexivity.
Qed.

(** C10, as stated, fails: float addition rounds, and the sums are taken
    in different orders.  With unit price 1, [xs] sells 10^16 and [ys]
    sells 1 and 1: the run over [xs ++ ys] adds 1 twice to 10^16 and loses
    it twice, while the two separate totals add up to 10^16 + 2. *)
Lemma C10_counterexample :
  let prices := [(KStr "A", 1%float)] in
  let xs := [transaction [line_item "A" (VInt 10000000000000000)]] in
  let ys := [transaction [line_item "A" (VInt 1); line_item "A" (VInt 1)]] in
  returned (run (compute_total_sales no_text (VList (xs ++ ys)) prices))
  = Ok 10000000000000000%float /\
  returned (run (compute_total_sales no_text (VList xs) prices))
  = Ok 10000000000000000%float /\
  returned (run (compute_total_sales no_text (VList ys) prices)) = Ok 2%float /\
  (10000000000000000 + 2 =? 10000000000000000)%float = false.
Proof. vm_compute. repeat split; reflexivity. Qed.

(** C10 (amended): the aggregation of [xs ++ ys] is the aggregation of
    [xs] followed by the loop over [ys] started from the total of [xs]
    (and from the output of [xs]); it raises where [xs] raises.  The
    aggregation of the empty list returns [0.0]. *)
Theorem C10_concatenation_continues (float_of_str : string -> option float)
    (xs ys : list value) (d : pdict) (s : state) :
  compute_total_sales float_of_str (VList (xs ++ ys)) d s =
  match compute_total_sales float_of_str (VList xs) d s with
  | (Ok total, s') => for_each (sale_body float_of_str) ys total s'
  | (Raise e, s') => (Raise e, s')
  end
  /\ returned (compute_total_sales float_of_str (VList []) d s) = Ok 0%float.
Proof. split; [apply compute_total_sales_app|reflexivity]. Qed.

(** C5, as stated, fails twice.  Neither prices nor quantities are
    checked for their sign: adding one valid, listed item of quantity -1 to
    an empty transaction takes the total from 0.0 down to -10.0.  And the
    sum rounds: with unit price 1, adding an item of quantity 1 to a
    transaction that sold 10^16 leaves the total at 10^16, no greater,
    although the quantity is not 0. *)
Lemma C5_counterexample :
  let prices := [(KStr "A", 10%float)] in
  let item := line_item "A" (VInt (-1)) in
  (item_amount no_text prices item = Some (-10)%float /\
   returned (run (compute_total_sales no_text (VList [transaction []]) prices))
   = Ok 0%float /\
   returned (run (compute_total_sales no_text (VList [transaction [item]]) prices))
   = Ok (-10)%float /\
   (-10 <? 0)%float = true)
  /\
  let unit := [(KStr "A", 1%float)] in
  let sold := line_item "A" (VInt 10000000000000000) in
  (returned (run (compute_total_sales no_text (VList [transaction [sold]]) unit))
   = Ok 10000000000000000%float /\
   returned (run (compute_total_sales no_text
                    (VList [transaction [sold; line_item "A" (VInt 1)]]) unit))
   = Ok 10000000000000000%float).
Proof. vm_compute. repeat split; reflexivity. Qed.

(** C5 (amended): adding to the items of a transaction, at any place, a
    valid line item whose product is in the price index, whose price and
    whose quantity are not negative, yields a total that is never smaller
    than the original one, and that is greater or equal whenever neither
    total is NaN.  (It need not be greater: the sum rounds.) *)
Theorem C5_nonnegative_item_never_lowers (float_of_str : string -> option float)
    (d : pdict) (pre post : list value) (fields fields' : list (string * value))
    (before after : list value) (item : value) (price quantity told : float)
    (s : state) :
  lookup "items" fields = Some (VList (before ++ after)) ->
  lookup "items" fields' = Some (VList (before ++ item :: after)) ->
  item_terms float_of_str d item = Some (price, quantity) ->
  (0 <=? price)%float = true ->
  (0 <=? quantity)%float = true ->
  returned (compute_total_sales float_of_str (VList (pre ++ VDict fields :: post)) d s)
  = Ok told ->
  exists tnew,
    returned (compute_total_sales float_of_str
                (VList (pre ++ VDict fields' :: post)) d s) = Ok tnew /\
    (tnew <? told)%float = false /\
    (PrimFloat.is_nan told = false -> PrimFloat.is_nan tnew = false ->
     (told <=? tnew)%float = true).
Proof.
  intros L L' T P Q H.
  assert (A : item_result float_of_str d item =
              fun t => Ok (t + price * quantity)%float)
    by (unfold item_result, item_amount; now rewrite T).
  assert (B : forall t0, not_below t0 (t0 + price * quantity)).
  { intros t0 N N'. apply Binary64.add_nonneg; auto.
    apply Binary64.mul_nonneg; auto.
    destruct (PrimFloat.is_nan (price * quantity)) eqn:E; auto.
    now rewrite (Binary64.add_nan_r t0 _ E) in N'. }
  destruct (compute_total_sales_run float_of_str (pre ++ VDict fields :: post) d s)
    as [out E]. rewrite E in H. clear E.
  destruct (compute_total_sales_run float_of_str (pre ++ VDict fields' :: post) d s)
    as [out' ->].
  unfold returned in *. cbn [fst] in *.
  unfold sales_result in *. rewrite fold_result_app in H |- *.
  destruct (fold_result (sale_result float_of_str d) pre 0%float) as [t1|e];
    [|discriminate].
  cbn [fold_result] in H |- *.
  unfold sale_result at 1 in H. unfold sale_result at 1.
  cbn [items_of] in H |- *. rewrite L in H. rewrite L'.
  rewrite fold_result_app in H |- *.
  destruct (fold_result (item_result float_of_str d) before t1) as [ta|e];
    [|discriminate].
  cbn [fold_result]. rewrite A.
  destruct (fold_result (item_result float_of_str d) after ta) as [t2|e] eqn:E2;
    [|discriminate].
  destruct (items_result_mono float_of_str d after _ _ _ (B ta) E2) as [t2' [-> B2]].
  destruct (sales_result_mono float_of_str d post _ _ _ B2 H) as [tnew [R N]].
  exists tnew. split; [exact R|]. split; [|exact N].
  now apply Binary64.never_below.
Qed.

Lemma C5_nonnegative_item_never_lowers_witness :
  exists tnew,
    returned (compute_total_sales no_text
                (VList [transaction [line_item "A" (VInt 2); line_item "A" (VInt 3);
                                     line_item "A" (VInt 4)];
                        transaction [line_item "A" (VInt 1)]])
                [(KStr "A", 10%float)] fresh) = Ok tnew /\
    (tnew <? 70)%float = false /\
    (PrimFloat.is_nan 70 = false -> PrimFloat.is_nan tnew = false ->
     (70 <=? tnew)%float = true).
Proof.
  apply (C5_nonnegative_item_never_lowers no_text [(KStr "A", 10%float)] []
           [transaction [line_item "A" (VInt 1)]]
           [("items", VList [line_item "A" (VInt 2); line_item "A" (VInt 4)])]
           [("items", VList [line_item "A" (VInt 2); line_item "A" (VInt 3);
                             line_item "A" (VInt 4)])]
           [line_item "A" (VInt 2)] [line_item "A" (VInt 4)] (line_item "A" (VInt 3))
           10%float 3%float 70%float fresh);
    reflexivity.
Defined.

(** X3: appending a valid line item whose product is in the price index
    to the items of a transaction adds price times quantity to the running
    total at that point and changes nothing else: the transactions after
    it are folded from [t0 + amount] where they were folded from [t0]. *)
Theorem added_item_adds_amount (float_of_str : string -> option float)
    (d : pdict) (pre post : list value) (fields fields' : list (string * value))
    (its : list value) (item : value) (amount t0 : float) (s s0 : state) :
  lookup "items" fields = Some (VList its) ->
  lookup "items" fields' = Some (VList (its ++ [item])) ->
  item_amount float_of_str d item = Some amount ->
  compute_total_sales float_of_str (VList (pre ++ [VDict fields])) d s = (Ok t0, s0) ->
  compute_total_sales float_of_str (VList (pre ++ VDict fields :: post)) d s
  = for_each (sale_body float_of_str) post t0 s0
  /\ compute_total_sales float_of_str (VList (pre ++ VDict fields' :: post)) d s
     = for_each (sale_body float_of_str) post (t0 + amount)%float s0.
Proof. apply appended_item_run. Qed.

Lemma added_item_adds_amount_witness :
  compute_total_sales no_text
    (VList [transaction [line_item "A" (VInt 2); line_item "A" (VInt 3)];
            transaction [line_item "A" (VInt 1)]])
    [(KStr "A", 10%float)] fresh
  = for_each (sale_body no_text) [transaction [line_item "A" (VInt 1)]]
      (20 + 30)%float (State [(KStr "A", 10%float)] [] None).
Proof.
  apply (added_item_adds_amount no_text [(KStr "A", 10%float)] []
           [transaction [line_item "A" (VInt 1)]]
           [("items", VList [line_item "A" (VInt 2)])]
           [("items", VList [line_item "A" (VInt 2); line_item "A" (VInt 3)])]
           [line_item "A" (VInt 2)] (line_item "A" (VInt 3))
           30%float 20%float fresh (State [(KStr "A", 10%float)] [] None));
    reflexivity.
Defined.

(** * The index builder *)

(** C4, as stated, fails: two valid entries with the same product are two
    valid entries and no invalid one, and the index has one key.  (An entry
    whose product is a list also has a product key and a convertible price;
    a list cannot be a dictionary key, and the entry is skipped.) *)
Lemma C4_counterexample :
  let catalogue := [catalogue_entry "A" (VInt 1); catalogue_entry "A" (VInt 2)] in
  let odd := [VDict [("product", VList []); ("price", VInt 1)]] in
  (forallb (valid_as_claimed no_text) catalogue = true /\
   List.length catalogue = 2%nat /\
   returned (run (build_price_dict no_text (VList catalogue)))
   = Ok [(KStr "A", 2%float)] /\
   dict_len [(KStr "A", 2%float)] = 1%nat)
  /\
  (forallb (valid_as_claimed no_text) odd = true /\
   returned (run (build_price_dict no_text (VList odd))) = Ok []).
Proof. vm_compute. repeat split; reflexivity. Qed.

(** C4 (amended): for every catalogue of N entries, each with a hashable
    [product] and a [price] that [float] accepts, whose products are
    pairwise different as dictionary keys, the builder returns a mapping
    with exactly N keys. *)
Theorem C4_distinct_products_give_N_keys (float_of_str : string -> option float)
    (entries : list value) (s : state) :
  Forall (fun entry => entry_binding float_of_str entry <> None) entries ->
  NoDup (entry_keys float_of_str entries) ->
  exists d,
    returned (build_price_dict float_of_str (VList entries) s) = Ok d /\
    dict_len d = List.length entries.
Proof.
  intros V N. rewrite build_price_dict_returns.
  destruct (entries_result_count float_of_str entries [] V N) as [d [E L]]; eauto.
Qed.

Lemma C4_distinct_products_give_N_keys_witness :
  exists d,
    returned (build_price_dict no_text
                (VList [catalogue_entry "A" (VInt 5);
                        catalogue_entry "B" (VFloat 10);
                        catalogue_entry "C" (VBool true)]) fresh) = Ok d /\
    dict_len d = 3%nat.
Proof.
  apply (C4_distinct_products_give_N_keys no_text
           [catalogue_entry "A" (VInt 5);
            catalogue_entry "B" (VFloat 10);
            catalogue_entry "C" (VBool true)] fresh).
  - repeat constructor; discriminate.
  - simpl. repeat constructor; simpl; intuition discriminate.
Defined.

(** C6: when the build returns, the price stored for a product is the
    price of the last entry that stores that product: an entry [entry]
    with product key [k] and price [price], after which no entry stores
    under [k].  Earlier prices of the product are overwritten, not merged. *)
Theorem C6_last_write_wins (float_of_str : string -> option float)
    (pre post : list value) (entry : value) (k : pykey) (price : float)
    (s : state) (d : pdict) :
  entry_binding float_of_str entry = Some (k, price) ->
  ~ In k (entry_keys float_of_str post) ->
  returned (build_price_dict float_of_str (VList (pre ++ entry :: post)) s) = Ok d ->
  dict_get d k = Some price.
Proof.
  intros B N. rewrite build_price_dict_returns.
  now apply entries_result_last.
Qed.

Lemma C6_last_write_wins_witness :
  dict_get [(KStr "A", 2.5%float); (KStr "C", 3%float)] (KStr "A") = Some 2.5%float.
Proof.
  apply (C6_last_write_wins no_text
           [catalogue_entry "A" (VInt 1); catalogue_entry "B" (VStr "x")]
           [catalogue_entry "A" (VStr "bad"); catalogue_entry "C" (VInt 3)]
           (catalogue_entry "A" (VFloat 2.5)) (KStr "A") 2.5%float fresh).
  - reflexivity.
  - simpl. intuition discriminate.
  - reflexivity.
Defined.

(** * The loader *)




(** * The entry point *)

Section Entry.

Variable float_of_str : string -> option float.
Variable w : world.




Lemma write_results_run (output : text) (s : state) :
  write_settles (write_file w) = true ->
  returned (write_results w output s) = Ok tt.
Proof.
  unfold write_results, returned.
  destruct (write_file w) as [[]|[]]; simpl; try discriminate; auto.
Qed.

End Entry.




(** * More facts *)

(** ** States and dictionaries *)

Lemma state_eta (s : state) :
  State (dict_obj s) (stdout s) (results_file s) = s.
Proof. now destruct s. Qed.

Lemma state_app_nil (s : state) :
  State (dict_obj s) (stdout s ++ []) (results_file s) = s.
Proof. rewrite app_nil_r. apply state_eta. Qed.

Lemma dict_get_set (d : pdict) (k k' : pykey) (v : float) :
  dict_get (dict_set d k v) k' = if key_eqb k k' then Some v else dict_get d k'.
Proof.
  destruct (key_eqb k k') eqn:E.
  - apply key_eqb_eq in E. subst k'. apply dict_get_set_same.
  - apply key_eqb_neq in E. now apply dict_get_set_other.
Qed.

Lemma dict_get_in (d : pdict) (k : pykey) :
  dict_get d k <> None <-> In k (map fst d).
Proof.
  induction d as [|[k' v] d IH]; simpl.
  - split; [congruence|tauto].
  - destruct (key_eqb k' k) eqn:E.
    + apply key_eqb_eq in E. split; [auto|discriminate].
    + apply key_eqb_neq in E. rewrite IH. split; [auto|intros [H|H]; congruence].
Qed.

Lemma dict_set_keys (d : pdict) (k : pykey) (v : float) :
  map fst (dict_set d k v) =
  match dict_get d k with
  | Some _ => map fst d
  | None => map fst d ++ [k]
  end.
Proof.
  induction d as [|[k' v'] d IH]; simpl; auto.
  destruct (key_eqb k' k) eqn:E; simpl; auto.
  rewrite IH. now destruct (dict_get d k).
Qed.

Lemma dict_set_nodup (d : pdict) (k : pykey) (v : float) :
  NoDup (map fst d) -> NoDup (map fst (dict_set d k v)).
Proof.
  intros N. rewrite dict_set_keys.
  destruct (dict_get d k) eqn:G; auto.
  apply NoDup_app; auto.
  - repeat constructor. simpl. tauto.
  - intros x I [<-|[]]. apply dict_get_in in I. congruence.
Qed.

Lemma dict_get_app (d1 d2 : pdict) (k : pykey) :
  dict_get (d1 ++ d2) k =
  match dict_get d1 k with
  | Some v => Some v
  | None => dict_get d2 k
  end.
Proof.
  induction d1 as [|[k' v] d1 IH]; simpl; auto.
  now destruct (key_eqb k' k).
Qed.

Lemma dict_get_some_in (d : pdict) (k : pykey) (v : float) :
  dict_get d k = Some v -> In (k, v) d.
Proof.
  induction d as [|[k' v'] d IH]; simpl; [discriminate|].
  destruct (key_eqb k' k) eqn:E.
  - apply key_eqb_eq in E. intros [= <-]. left. now subst.
  - auto.
Qed.

Lemma dict_get_in_some (d : pdict) (k : pykey) (v : float) :
  NoDup (map fst d) -> In (k, v) d -> dict_get d k = Some v.
Proof.
  induction d as [|[k' v'] d IH]; simpl; [tauto|].
  intros N. inversion N as [|? ? N1 N2]; subst.
  intros [[= -> ->]|I].
  - now rewrite key_eqb_refl.
  - destruct (key_eqb k' k) eqn:E; auto.
    apply key_eqb_eq in E. subst k'. exfalso. apply N1.
    change k with (fst (k, v)). now apply in_map.
Qed.

Lemma dict_get_perm (l l' : pdict) (k : pykey) :
  Permutation l l' -> NoDup (map fst l) -> dict_get l k = dict_get l' k.
Proof.
  intros P N.
  assert (N' : NoDup (map fst l'))
    by (eapply Permutation_NoDup; [apply Permutation_map; exact P|exact N]).
  destruct (dict_get l k) as [v|] eqn:G.
  - symmetry. apply dict_get_in_some; auto.
    eapply Permutation_in; [exact P|]. now apply dict_get_some_in.
  - destruct (dict_get l' k) as [v'|] eqn:G'; auto.
    apply dict_get_some_in in G'.
    apply (Permutation_in _ (Permutation_sym P)) in G'.
    apply (dict_get_in_some _ _ _ N) in G'. congruence.
Qed.

(** ** The loops, with what they print *)

Section Outputs.

Variable float_of_str : string -> option float.









End Outputs.

(** ** The index as the valid entries make it *)

Section Index.

Variable float_of_str : string -> option float.

Lemma binding_no_overflow (entry : value) (b : pykey * float) :
  entry_binding float_of_str entry = Some b -> overflows "price" entry = false.
Proof.
  unfold entry_binding. destruct entry as [| | | | |l|fields]; try discriminate.
  destruct (lookup "product" fields) as [product|] eqn:P; [|discriminate].
  destruct (lookup "price" fields) as [raw|] eqn:Q; [|discriminate].
  rewrite (overflows_float float_of_str _ _ _ _ P Q).
  now destruct (py_float float_of_str raw).
Qed.


(** The pure reading of the catalogue loop returns exactly when no entry
    overflows, and then it is the fold of [store_entry]; all it can raise
    is [OverflowError]. *)
Lemma entries_result_cases (entries : list value) :
  forall d0,
    (no_overflow "price" entries = true /\
     entries_result float_of_str entries d0 =
     Ok (fold_left (store_entry float_of_str) entries d0))
    \/ (no_overflow "price" entries = false /\
        entries_result float_of_str entries d0 = Raise OverflowError).
Proof.
  unfold entries_result, no_overflow.
  induction entries as [|entry entries IH]; intros d0; simpl; auto.
  unfold entry_result at 1 3, store_entry at 2.
  destruct (entry_binding float_of_str entry) as [[k price]|] eqn:B.
  - rewrite (binding_no_overflow _ _ B). simpl. apply IH.
  - destruct (overflows "price" entry); simpl; auto.
Qed.

Lemma store_entries_get (entries : list value) (k : pykey) :
  forall d0,
    dict_get (fold_left (store_entry float_of_str) entries d0) k <> None <->
    dict_get d0 k <> None \/ In k (entry_keys float_of_str entries).
Proof.
  unfold entry_keys.
  induction entries as [|entry entries IH]; intros d0; simpl.
  - tauto.
  - rewrite IH. unfold store_entry at 1.
    destruct (entry_binding float_of_str entry) as [[k' price]|]; simpl; [|tauto].
    rewrite dict_get_set. destruct (key_eqb k' k) eqn:E.
    + apply key_eqb_eq in E. split; [auto|intros _; left; discriminate].
    + apply key_eqb_neq in E. tauto.
Qed.

Lemma store_entries_nodup (entries : list value) :
  forall d0,
    NoDup (map fst d0) ->
    NoDup (map fst (fold_left (store_entry float_of_str) entries d0)).
Proof.
  induction entries as [|entry entries IH]; intros d0 N; simpl; auto.
  apply IH. unfold store_entry.
  destruct (entry_binding float_of_str entry) as [[k price]|]; auto.
  now apply dict_set_nodup.
Qed.

Lemma index_keys (entries : list value) (k : pykey) :
  In k (map fst (index_of float_of_str entries)) <->
  In k (entry_keys float_of_str entries).
Proof.
  rewrite <- dict_get_in. unfold index_of. rewrite store_entries_get. simpl.
  split; [intros [H|H]; [congruence|auto]|auto].
Qed.

Lemma index_count (entries : list value) :
  dict_len (index_of float_of_str entries) =
  List.length (nodup pykey_eq_dec (entry_keys float_of_str entries)).
Proof.
  unfold dict_len. rewrite <- (length_map fst).
  apply Permutation_length, NoDup_Permutation.
  - apply store_entries_nodup. constructor.
  - apply NoDup_nodup.
  - intros k. rewrite nodup_In. apply index_keys.
Qed.

Lemma build_returns_index (entries : list value) (s : state) (d : pdict) :
  returned (build_price_dict float_of_str (VList entries) s) = Ok d ->
  d = index_of float_of_str entries.
Proof.
  rewrite build_price_dict_returns.
  destruct (entries_result_cases entries []) as [[_ ->]|[_ ->]];
    [now intros [= <-]|discriminate].
Qed.



End Index.

Section Merge.

Variable float_of_str : string -> option float.

Lemma bindings_app (xs ys : list value) :
  bindings float_of_str (xs ++ ys)
  = bindings float_of_str xs ++ bindings float_of_str ys.
Proof. apply flat_map_app. Qed.

Lemma bindings_keys (entries : list value) :
  map fst (bindings float_of_str entries) = entry_keys float_of_str entries.
Proof.
  unfold bindings, entry_keys.
  induction entries as [|entry entries IH]; simpl; auto.
  rewrite map_app, IH.
  now destruct (entry_binding float_of_str entry) as [[k price]|].
Qed.

Lemma store_entries_last (entries : list value) (k : pykey) :
  forall d0,
    dict_get (fold_left (store_entry float_of_str) entries d0) k =
    match last_price float_of_str entries k with
    | Some price => Some price
    | None => dict_get d0 k
    end.
Proof.
  unfold last_price, bindings.
  induction entries as [|entry entries IH]; intros d0; simpl; auto.
  rewrite IH, rev_app_distr, dict_get_app.
  destruct (dict_get (rev (flat_map _ entries)) k); auto.
  unfold store_entry.
  destruct (entry_binding float_of_str entry) as [[k' price]|]; simpl; auto.
  rewrite dict_get_set. now destruct (key_eqb k' k).
Qed.

Lemma index_of_last (entries : list value) (k : pykey) :
  dict_get (index_of float_of_str entries) k = last_price float_of_str entries k.
Proof.
  unfold index_of. rewrite store_entries_last. simpl.
  now destruct (last_price float_of_str entries k).
Qed.

(** The results file is left alone by a build and by an aggregation,
    whatever the document. *)
Lemma build_keeps_the_file (price_data : value) (s : state) :
  results_file (snd (build_price_dict float_of_str price_data s)) = results_file s.
Proof.
  unfold build_price_dict, bind, dict_new, lift, dict_return.
  destruct (py_iter price_data) as [entries|e]; [|reflexivity].
  destruct (entries_loop_run float_of_str entries
              (State [] (stdout s) (results_file s))) as [out [d' [-> _]]].
  now destruct (entries_result float_of_str entries _).
Qed.

Lemma compute_keeps_the_file (sales_data : value) (d : pdict) (s : state) :
  results_file (snd (compute_total_sales float_of_str sales_data d s))
  = results_file s.
Proof.
  unfold compute_total_sales, bind, dict_bind, lift.
  destruct (py_iter sales_data) as [sales|e]; [|reflexivity].
  destruct (for_each_reads_only _ _ (sale_reads_only float_of_str) sales 0%float
              (State d (stdout s) (results_file s))) as [out ->].
  reflexivity.
Qed.

(** A relation on running totals that [+ amount] keeps is kept by the
    loops. *)
Lemma items_result_related (R : float -> float -> Prop) (d : pdict)
    (items : list value) :
  (forall t t' c, R t t' -> R (t + c)%float (t' + c)%float) ->
  forall t t' r,
    R t t' ->
    fold_result (item_result float_of_str d) items t = Ok r ->
    exists r', fold_result (item_result float_of_str d) items t' = Ok r' /\ R r r'.
Proof.
  intros HR. induction items as [|item items IH]; intros t t' r B; simpl.
  - intros [= <-]. eauto.
  - unfold item_result at 1 3.
    destruct (item_amount float_of_str d item) as [a|].
    + apply IH. now apply HR.
    + destruct (overflows "quantity" item); [discriminate|]. now apply IH.
Qed.

Lemma sales_result_related (R : float -> float -> Prop) (d : pdict)
    (sales : list value) :
  (forall t t' c, R t t' -> R (t + c)%float (t' + c)%float) ->
  forall t t' r,
    R t t' ->
    sales_result float_of_str d sales t = Ok r ->
    exists r', sales_result float_of_str d sales t' = Ok r' /\ R r r'.
Proof.
  intros HR. unfold sales_result.
  induction sales as [|sale sales IH]; intros t t' r B; simpl.
  - intros [= <-]. eauto.
  - destruct (sale_result float_of_str d sale t) as [t1|e] eqn:E; [|discriminate].
    intros H. unfold sale_result in E |- *. destruct sale; try discriminate.
    destruct (items_result_related R d _ HR _ _ _ B E) as [t1' [-> B1]].
    now apply (IH t1 t1' r).
Qed.

End Merge.

(** ** The total as a sum of terms *)

Section Sums.

Variable float_of_str : string -> option float.






End Sums.

Section Totals.

Variable float_of_str : string -> option float.



End Totals.

(** ** The pipeline *)

Lemma load_keeps_the_file (w : world) (filename : string) (s : state) :
  results_file (snd (load_json_file w filename s)) = results_file s.
Proof.
  unfold load_json_file. now destruct (read_json w filename) as [doc|[]].
Qed.

Section Pipeline.

Variable float_of_str : string -> option float.
Variable w : world.

(** The loader, whatever the file system answers among what it handles. *)
Lemma load_json_file_exact (filename : string) (s : state) :
  load_settles (read_json w filename) = true ->
  load_json_file w filename s =
  (Ok (match read_json w filename with
       | Ok doc => doc
       | Raise _ => VNone
       end),
   State (dict_obj s) (stdout s ++ load_output w filename) (results_file s)).
Proof.
  unfold load_json_file, load_output.
  destruct (read_json w filename) as [doc|[]]; simpl; try discriminate; intros _;
    try reflexivity.
  unfold ret. now rewrite state_app_nil.
Qed.



End Pipeline.


(** * The index builder, further *)



(** X5: a product is a key of the index that a build returns exactly when a
    valid entry of the catalogue stores it. *)
Theorem index_lists_the_valid_products (float_of_str : string -> option float)
    (entries : list value) (s : state) (d : pdict) (k : pykey) :
  returned (build_price_dict float_of_str (VList entries) s) = Ok d ->
  (dict_get d k <> None <-> In k (entry_keys float_of_str entries)).
Proof.
  intros H. rewrite (build_returns_index float_of_str entries s d H).
  rewrite dict_get_in. apply index_keys.
Qed.

Lemma index_lists_the_valid_products_witness :
  dict_get [(KStr "A", 5%float)] (KStr "A") <> None <->
  In (KStr "A")
    (entry_keys no_text [catalogue_entry "A" (VInt 5); catalogue_entry "B" (VStr "dear")]).
Proof.
  apply (index_lists_the_valid_products no_text
           [catalogue_entry "A" (VInt 5); catalogue_entry "B" (VStr "dear")]
           fresh [(KStr "A", 5%float)] (KStr "A")).
  reflexivity.
Defined.

(** X6: the index that a build returns holds each product once, and as many
    products as the valid entries of the catalogue name different ones;
    never more than the catalogue has entries. *)
Theorem index_counts_the_different_products (float_of_str : string -> option float)
    (entries : list value) (s : state) (d : pdict) :
  returned (build_price_dict float_of_str (VList entries) s) = Ok d ->
  NoDup (map fst d)
  /\ dict_len d = List.length (nodup pykey_eq_dec (entry_keys float_of_str entries))
  /\ (dict_len d <= List.length entries)%nat.
Proof.
  intros H. rewrite (build_returns_index float_of_str entries s d H).
  split; [|split].
  - apply store_entries_nodup. constructor.
  - apply index_count.
  - rewrite index_count.
    apply Nat.le_trans with (List.length (entry_keys float_of_str entries)).
    + apply NoDup_incl_length; [apply NoDup_nodup|].
      intros k I. now apply nodup_In in I.
    + unfold entry_keys. clear H. induction entries as [|entry entries IH]; simpl; auto.
      rewrite length_app.
      destruct (entry_binding float_of_str entry) as [[k price]|]; simpl; lia.
Qed.

Lemma index_counts_the_different_products_witness :
  let entries := [catalogue_entry "A" (VInt 5); catalogue_entry "B" (VInt 1);
                  VNone; catalogue_entry "A" (VInt 6)] in
  NoDup (map fst [(KStr "A", 6%float); (KStr "B", 1%float)])
  /\ dict_len [(KStr "A", 6%float); (KStr "B", 1%float)]
     = List.length (nodup pykey_eq_dec (entry_keys no_text entries))
  /\ (dict_len [(KStr "A", 6%float); (KStr "B", 1%float)] <= List.length entries)%nat.
Proof.
  apply (index_counts_the_different_products no_text
           [catalogue_entry "A" (VInt 5); catalogue_entry "B" (VInt 1);
            VNone; catalogue_entry "A" (VInt 6)] fresh).
  reflexivity.
Defined.

(** X7: the price that the index holds for a product is the one of the last
    valid entry that names the product, and no price when no valid entry
    does. *)
Theorem index_holds_the_last_price (float_of_str : string -> option float)
    (entries : list value) (s : state) (d : pdict) (k : pykey) :
  returned (build_price_dict float_of_str (VList entries) s) = Ok d ->
  dict_get d k = last_price float_of_str entries k.
Proof.
  intros H. rewrite (build_returns_index float_of_str entries s d H).
  apply index_of_last.
Qed.

Lemma index_holds_the_last_price_witness :
  dict_get [(KStr "A", 7%float); (KStr "B", 2%float)] (KStr "A")
  = last_price no_text
      [catalogue_entry "A" (VInt 1); catalogue_entry "B" (VInt 2);
       catalogue_entry "A" (VInt 7); catalogue_entry "A" (VStr "free")]
      (KStr "A").
Proof.
  apply (index_holds_the_last_price no_text
           [catalogue_entry "A" (VInt 1); catalogue_entry "B" (VInt 2);
            catalogue_entry "A" (VInt 7); catalogue_entry "A" (VStr "free")]
           fresh [(KStr "A", 7%float); (KStr "B", 2%float)] (KStr "A")).
  reflexivity.
Defined.

(** X8: building from two catalogues one after the other: the prices of the
    second override those of the first, and the other prices of the first
    are kept. *)
Theorem index_of_two_catalogues (float_of_str : string -> option float)
    (xs ys : list value) (s sx sy : state) (d dx dy : pdict) (k : pykey) :
  returned (build_price_dict float_of_str (VList (xs ++ ys)) s) = Ok d ->
  returned (build_price_dict float_of_str (VList xs) sx) = Ok dx ->
  returned (build_price_dict float_of_str (VList ys) sy) = Ok dy ->
  dict_get d k = match dict_get dy k with
                 | Some price => Some price
                 | None => dict_get dx k
                 end.
Proof.
  intros H Hx Hy.
  rewrite (build_returns_index float_of_str _ _ _ H).
  rewrite (build_returns_index float_of_str _ _ _ Hx).
  rewrite (build_returns_index float_of_str _ _ _ Hy).
  rewrite !index_of_last. unfold last_price.
  now rewrite bindings_app, rev_app_distr, dict_get_app.
Qed.

Lemma index_of_two_catalogues_witness :
  dict_get [(KStr "A", 3%float); (KStr "B", 2%float); (KStr "C", 4%float)] (KStr "B")
  = match dict_get [(KStr "A", 3%float); (KStr "C", 4%float)] (KStr "B") with
    | Some price => Some price
    | None => dict_get [(KStr "A", 1%float); (KStr "B", 2%float)] (KStr "B")
    end.
Proof.
  apply (index_of_two_catalogues no_text
           [catalogue_entry "A" (VInt 1); catalogue_entry "B" (VInt 2)]
           [catalogue_entry "A" (VInt 3); catalogue_entry "C" (VInt 4)]
           fresh fresh fresh
           [(KStr "A", 3%float); (KStr "B", 2%float); (KStr "C", 4%float)]
           [(KStr "A", 1%float); (KStr "B", 2%float)]
           [(KStr "A", 3%float); (KStr "C", 4%float)] (KStr "B"));
    reflexivity.
Defined.

(** X9: a catalogue whose valid entries name each product once can be listed
    in any order: the index holds the same price for every product. *)
Theorem index_of_a_reordered_catalogue (float_of_str : string -> option float)
    (entries entries' : list value) (s s' : state) (d d' : pdict) (k : pykey) :
  Permutation entries entries' ->
  NoDup (entry_keys float_of_str entries) ->
  returned (build_price_dict float_of_str (VList entries) s) = Ok d ->
  returned (build_price_dict float_of_str (VList entries') s') = Ok d' ->
  dict_get d k = dict_get d' k.
Proof.
  intros P N H H'.
  rewrite (build_returns_index float_of_str _ _ _ H).
  rewrite (build_returns_index float_of_str _ _ _ H').
  rewrite !index_of_last. unfold last_price.
  apply dict_get_perm.
  - rewrite <- !Permutation_rev. unfold bindings. now apply Permutation_flat_map.
  - rewrite map_rev, bindings_keys.
    eapply Permutation_NoDup; [apply Permutation_rev|exact N].
Qed.

Lemma index_of_a_reordered_catalogue_witness :
  dict_get [(KStr "A", 1%float); (KStr "B", 2%float)] (KStr "B")
  = dict_get [(KStr "B", 2%float); (KStr "A", 1%float)] (KStr "B").
Proof.
  apply (index_of_a_reordered_catalogue no_text
           [catalogue_entry "A" (VInt 1); VNone; catalogue_entry "B" (VInt 2)]
           [catalogue_entry "B" (VInt 2); catalogue_entry "A" (VInt 1); VNone]
           fresh fresh
           [(KStr "A", 1%float); (KStr "B", 2%float)]
           [(KStr "B", 2%float); (KStr "A", 1%float)] (KStr "B")).
  - apply perm_trans with [catalogue_entry "A" (VInt 1); catalogue_entry "B" (VInt 2);
                           VNone].
    + apply perm_skip. apply perm_swap.
    + apply perm_swap.
  - simpl. repeat constructor; simpl; intuition discriminate.
  - reflexivity.
  - reflexivity.
Defined.



(** * The aggregator, further *)




(** X14: a sales document that is not a list.  An object is iterated by its
    keys and a string by its characters, and a string has no method [get]:
    [AttributeError] at the first of them, outside every handler; the empty
    object and the empty string give the total [0.0].  A number, a boolean
    or [None] cannot be iterated: [TypeError]. *)
Theorem compute_total_sales_of_other_documents (float_of_str : string -> option float)
    (d : pdict) (s : state) :
  (forall fields,
     returned (compute_total_sales float_of_str (VDict fields) d s) =
     match fields with
     | [] => Ok 0%float
     | _ :: _ => Raise AttributeError
     end)
  /\ (forall str,
        returned (compute_total_sales float_of_str (VStr str) d s) =
        match str with
        | EmptyString => Ok 0%float
        | String _ _ => Raise AttributeError
        end)
  /\ (forall v,
        is_list v = false -> is_record v = false -> (forall str, v <> VStr str) ->
        returned (compute_total_sales float_of_str v d s) = Raise TypeError).
Proof.
  split; [|split].
  - intros fields. unfold compute_total_sales, bind, dict_bind, lift, returned.
    cbn [py_iter]. unfold dict_keys.
    destruct fields as [|[key x] fields]; [reflexivity|].
    destruct (nodup string_dec (map fst ((key, x) :: fields))) as [|key' keys] eqn:E.
    + exfalso. assert (I : In key (nodup string_dec (map fst ((key, x) :: fields))))
        by (apply nodup_In; now left).
      now rewrite E in I.
    + reflexivity.
  - intros str. destruct str; reflexivity.
  - intros v NL NR NS.
    destruct v as [| | | | str |l|fields]; try discriminate; try reflexivity.
    now destruct (NS str).
Qed.









(** X19: adding to the items of a transaction, at any place, a valid line item
    whose product is in the index and whose quantity is zero, at a price
    such that price times quantity is not NaN (a finite price), leaves the
    total as it was: the two totals are equal floats, or both NaN. *)
Theorem zero_quantity_leaves_the_total (float_of_str : string -> option float)
    (d : pdict) (pre post : list value) (fields fields' : list (string * value))
    (before after : list value) (item : value) (price quantity told : float)
    (s : state) :
  lookup "items" fields = Some (VList (before ++ after)) ->
  lookup "items" fields' = Some (VList (before ++ item :: after)) ->
  item_terms float_of_str d item = Some (price, quantity) ->
  (quantity =? 0)%float = true ->
  PrimFloat.is_nan (price * quantity) = false ->
  returned (compute_total_sales float_of_str (VList (pre ++ VDict fields :: post)) d s)
  = Ok told ->
  exists tnew,
    returned (compute_total_sales float_of_str
                (VList (pre ++ VDict fields' :: post)) d s) = Ok tnew /\
    alike tnew told.
Proof.
  intros L L' T Q N H.
  assert (A : item_result float_of_str d item =
              fun t => Ok (t + price * quantity)%float)
    by (unfold item_result, item_amount; now rewrite T).
  destruct (compute_total_sales_run float_of_str (pre ++ VDict fields :: post) d s)
    as [out E]. rewrite E in H. clear E.
  destruct (compute_total_sales_run float_of_str (pre ++ VDict fields' :: post) d s)
    as [out' ->].
  unfold returned in *. cbn [fst] in *.
  unfold sales_result in *. rewrite fold_result_app in H |- *.
  destruct (fold_result (sale_result float_of_str d) pre 0%float) as [t1|e];
    [|discriminate].
  cbn [fold_result] in H |- *.
  unfold sale_result at 1 in H. unfold sale_result at 1.
  cbn [items_of] in H |- *. rewrite L in H. rewrite L'.
  rewrite fold_result_app in H |- *.
  destruct (fold_result (item_result float_of_str d) before t1) as [ta|e];
    [|discriminate].
  cbn [fold_result]. rewrite A.
  destruct (fold_result (item_result float_of_str d) after ta) as [t2|e] eqn:E2;
    [|discriminate].
  destruct (items_result_related float_of_str alike d after Exact64.alike_add
              ta (ta + price * quantity)%float t2
              (Exact64.alike_sym _ _ (Exact64.alike_add_zero ta price quantity Q N)) E2) as [t2' [-> B2]].
  destruct (sales_result_related float_of_str alike d post Exact64.alike_add _ _ _ B2 H)
    as [tnew [R B]].
  exists tnew. split; [exact R|]. now apply Exact64.alike_sym.
Qed.

Lemma zero_quantity_leaves_the_total_witness :
  exists tnew,
    returned (compute_total_sales no_text
                (VList [transaction [line_item "A" (VInt 2); line_item "A" (VInt 0);
                                     line_item "A" (VInt 4)]])
                [(KStr "A", 10%float)] fresh) = Ok tnew /\
    alike tnew 60.
Proof.
  apply (zero_quantity_leaves_the_total no_text [(KStr "A", 10%float)] [] []
           [("items", VList [line_item "A" (VInt 2); line_item "A" (VInt 4)])]
           [("items", VList [line_item "A" (VInt 2); line_item "A" (VInt 0);
                             line_item "A" (VInt 4)])]
           [line_item "A" (VInt 2)] [line_item "A" (VInt 4)] (line_item "A" (VInt 0))
           10%float 0%float 60%float fresh);
    reflexivity.
Defined.

(** * The loader, further *)

(** X20: what the loader returns for every answer of the file system: the
    document when there is one, [None] exactly for a document that is
    [null] and for the three failures it reports; every other exception of
    [open] or [json.load] (a file that is not UTF-8, say) leaves the loader
    as it came, with nothing printed.  A document is returned with nothing
    printed. *)
Theorem load_json_file_outcomes (w : world) (filename : string) (s : state) :
  (forall doc, read_json w filename = Ok doc ->
               load_json_file w filename s = (Ok doc, s))
  /\ (returned (load_json_file w filename s) = Ok VNone
      <-> absent (read_json w filename) = true)
  /\ (forall e, returned (load_json_file w filename s) = Raise e
                <-> read_json w filename = Raise e /\
                    load_settles (read_json w filename) = false)
  /\ (load_settles (read_json w filename) = false ->
      snd (load_json_file w filename s) = s)
  /\ printed (load_json_file w filename s) = stdout s ++ load_output w filename.
Proof.
  unfold load_json_file, load_output, returned, printed.
  destruct (read_json w filename) as [doc|e].
  - cbn. split; [now intros ? [= <-]|]. split; [|split; [|split]].
    + split; [intros [= ->]; reflexivity|]. now destruct doc.
    + intros e. split; [discriminate|intros [H _]; discriminate].
    + discriminate.
    + now rewrite app_nil_r.
  - split; [discriminate|].
    destruct e; cbn; rewrite ?app_nil_r.
    all: split; [split; ((intros _; reflexivity) || discriminate)|].
    all: split;
      [intros e'; split;
         [intros H; (discriminate H || now split)
         |intros [H H']; (discriminate H' || exact H)]|].
    all: split; [discriminate || (intros _; reflexivity)|reflexivity].
Qed.

(** * The entry point, further *)





(** X23: the two fatal paths.  With an argument count other than two, [main]
    prints the usage line and exits with status 1, whatever the files hold.
    With two arguments, when a load returns [None], [main] exits with
    status 1 after both loads: each failed load has printed its line, the
    second file is loaded also when the first has failed, and nothing is
    built, summed, printed as a summary or written. *)
Theorem main_stops_before_the_pipeline (float_of_str : string -> option float)
    (w : world) (s : state) :
  (List.length (argv w) <> 3%nat ->
   main float_of_str w s = (Raise (SystemExit 1), after_print s usage))
  /\ (List.length (argv w) = 3%nat ->
      load_settles (read_json w (nth 1 (argv w) "")) = true ->
      load_settles (read_json w (nth 2 (argv w) "")) = true ->
      absent (read_json w (nth 1 (argv w) "")) = true \/
      absent (read_json w (nth 2 (argv w) "")) = true ->
      main float_of_str w s =
      (Raise (SystemExit 1),
       State (dict_obj s)
         (stdout s ++ load_output w (nth 1 (argv w) "") ++
          load_output w (nth 2 (argv w) ""))
         (results_file s))).
Proof.
  unfold main. split.
  - intros N. apply Nat.eqb_neq in N. now rewrite N.
  - intros N S1 S2 A. rewrite N. cbn [Nat.eqb negb]. unfold bind.
    rewrite (load_json_file_exact w _ s S1).
    rewrite (load_json_file_exact w _ _ S2).
    cbn [dict_obj stdout results_file]. rewrite <- app_assoc.
    match goal with
    | |- (if ?c then _ else _) _ = _ => assert (E : c = true)
    end.
    { apply orb_true_iff. destruct A as [A|A]; [left|right].
      - destruct (read_json w (nth 1 (argv w) "")) as [[]|[]];
          simpl in *; try discriminate; auto.
      - destruct (read_json w (nth 2 (argv w) "")) as [[]|[]];
          simpl in *; try discriminate; auto. }
    now rewrite E.
Qed.

Lemma main_stops_before_the_pipeline_witness :
  let w := World ["computeSales.py"; "prices.json"; "sales.json"]
             (fun path => if String.eqb path "prices.json"
                          then Raise (FileNotFoundError "No such file or directory")
                          else Raise JSONDecodeError)
             (Ok tt) 5%float 7%float in
  main no_text w (State [] [] (Some [Lit "kept"])) =
  (Raise (SystemExit 1),
   State [] [[Lit "ERROR: File 'prices.json' not found."];
             [Lit "ERROR: File 'sales.json' contains invalid JSON."]]
     (Some [Lit "kept"])).
Proof.
  apply (proj2 (main_stops_before_the_pipeline no_text
           (World ["computeSales.py"; "prices.json"; "sales.json"]
              (fun path => if String.eqb path "prices.json"
                           then Raise (FileNotFoundError "No such file or directory")
                           else Raise JSONDecodeError)
              (Ok tt) 5%float 7%float)
           (State [] [] (Some [Lit "kept"])))); try reflexivity.
  left. reflexivity.
Defined.



(** X25: a run that does not end normally has not touched the results file:
    whatever the arguments and the documents, when [main] raises (an exit
    or an exception that nothing catches), the results file is as it was
    before the run. *)
Theorem failed_run_writes_nothing (float_of_str : string -> option float)
    (w : world) (s : state) (e : exn) :
  write_settles (write_file w) = true ->
  returned (main float_of_str w s) = Raise e ->
  results_file (snd (main float_of_str w s)) = results_file s.
Proof.
  intros W. unfold main.
  destruct (negb (List.length (argv w) =? 3)%nat); [reflexivity|].
  unfold bind.
  pose proof (load_keeps_the_file w (nth 1 (argv w) "") s) as L1.
  destruct (load_json_file w (nth 1 (argv w) "") s) as [[price_data|e1] s1];
    [|intros _; exact L1].
  pose proof (load_keeps_the_file w (nth 2 (argv w) "") s1) as L2.
  destruct (load_json_file w (nth 2 (argv w) "") s1) as [[sales_data|e2] s2];
    cbn [snd] in L1, L2; [|intros _; cbn [snd]; congruence].
  destruct (is_none price_data || is_none sales_data);
    [intros _; cbn [snd raise]; congruence|].
  pose proof (build_keeps_the_file float_of_str price_data s2) as B.
  destruct (build_price_dict float_of_str price_data s2) as [[d|eb] s3];
    cbn [snd] in B; [|intros _; cbn [snd]; congruence].
  pose proof (compute_keeps_the_file float_of_str sales_data d s3) as C.
  destruct (compute_total_sales float_of_str sales_data d s3) as [[t|ec] s4];
    cbn [snd] in C; [|intros _; cbn [snd]; congruence].
  unfold py_print.
  match goal with
  | |- returned (write_results ?w ?o ?st) = _ -> _ =>
      rewrite (write_results_run w o st W)
  end.
  discriminate.
Qed.

Lemma failed_run_writes_nothing_witness :
  results_file
    (snd (main no_text
            (World ["computeSales.py"; "prices.json"; "sales.json"]
               (fun path => if String.eqb path "prices.json"
                            then Ok (VList [catalogue_entry "A" (VInt 10)])
                            else Ok (VList [transaction [line_item "A" (VInt 1)];
                                            VInt 5]))
               (Ok tt) 5%float 7%float)
            (State [] [] (Some [Lit "the results of an earlier run"]))))
  = Some [Lit "the results of an earlier run"].
Proof.
  apply (failed_run_writes_nothing no_text
           (World ["computeSales.py"; "prices.json"; "sales.json"]
              (fun path => if String.eqb path "prices.json"
                           then Ok (VList [catalogue_entry "A" (VInt 10)])
                           else Ok (VList [transaction [line_item "A" (VInt 1)];
                                           VInt 5]))
              (Ok tt) 5%float 7%float)
           (State [] [] (Some [Lit "the results of an earlier run"]))
           AttributeError); reflexivity.
Defined.

(** X26: two runs that differ by the clock only: what [main] returns or raises
    is the same, and so is everything it prints and writes but for the
    field of the elapsed time. *)
Theorem main_but_for_the_clock (float_of_str : string -> option float)
    (w w' : world) (s : state) :
  argv w' = argv w ->
  (forall filename, read_json w' filename = read_json w filename) ->
  write_file w' = write_file w ->
  returned (main float_of_str w' s) = returned (main float_of_str w s)
  /\ map untimed (printed (main float_of_str w' s))
     = map untimed (printed (main float_of_str w s))
  /\ option_map untimed (results_file (snd (main float_of_str w' s)))
     = option_map untimed (results_file (snd (main float_of_str w s))).
Proof.
  intros A R W.
  assert (L : forall filename s0, load_json_file w' filename s0 = load_json_file w filename s0)
    by (intros; unfold load_json_file; now rewrite R).
  unfold main. rewrite A.
  destruct (negb (List.length (argv w) =? 3)%nat); [repeat split|].
  unfold bind. rewrite L.
  destruct (load_json_file w (nth 1 (argv w) "") s) as [[price_data|e] s1];
    [|repeat split].
  rewrite L.
  destruct (load_json_file w (nth 2 (argv w) "") s1) as [[sales_data|e] s2];
    [|repeat split].
  destruct (is_none price_data || is_none sales_data); [repeat split|].
  destruct (build_price_dict float_of_str price_data s2) as [[d|e] s3];
    [|repeat split].
  destruct (compute_total_sales float_of_str sales_data d s3) as [[t|e] s4];
    [|repeat split].
  unfold py_print, write_results. rewrite W.
  destruct (write_file w) as [[]|[]]; unfold returned, printed, raise, py_print;
    cbn [fst snd dict_obj stdout results_file option_map];
    rewrite ?map_app; repeat split.
Qed.

Lemma main_but_for_the_clock_witness :
  let files := fun path => if String.eqb path "prices.json"
                           then Ok (VList [catalogue_entry "A" (VInt 10)])
                           else Ok (VList [transaction [line_item "A" (VInt 2)]]) in
  let w := World ["computeSales.py"; "prices.json"; "sales.json"] files
             (Ok tt) 5%float 7%float in
  let w' := World ["computeSales.py"; "prices.json"; "sales.json"] files
              (Ok tt) 100%float 103%float in
  returned (main no_text w' fresh) = returned (main no_text w fresh)
  /\ map untimed (printed (main no_text w' fresh))
     = map untimed (printed (main no_text w fresh))
  /\ option_map untimed (results_file (snd (main no_text w' fresh)))
     = option_map untimed (results_file (snd (main no_text w fresh))).
Proof.
  apply (main_but_for_the_clock no_text
           (World ["computeSales.py"; "prices.json"; "sales.json"]
              (fun path => if String.eqb path "prices.json"
                           then Ok (VList [catalogue_entry "A" (VInt 10)])
                           else Ok (VList [transaction [line_item "A" (VInt 2)]]))
              (Ok tt) 5%float 7%float)
           (World ["computeSales.py"; "prices.json"; "sales.json"]
              (fun path => if String.eqb path "prices.json"
                           then Ok (VList [catalogue_entry "A" (VInt 10)])
                           else Ok (VList [transaction [line_item "A" (VInt 2)]]))
              (Ok tt) 100%float 103%float)
           fresh); reflexivity.
Defined.

(** * The report *)



(** * The scenarios of the specification *)

(** Scenario A: catalogue [{"product": "A", "price": 10}] and sales
    [{"items": [{"product": "A", "quantity": 2}]}] give the total 20.0,
    printed and written in the summary, and the exit status 0. *)
Example scenario_A_total_20 :
  let w := World ["computeSales.py"; "prices.json"; "sales.json"]
             (fun path => if String.eqb path "prices.json"
                          then Ok (VList [catalogue_entry "A" (VInt 10)])
                          else Ok (VList [transaction [line_item "A" (VInt 2)]]))
             (Ok tt) 5%float 7%float in
  run (main no_text w)
  = (Ok tt, State [(KStr "A", 10%float)] [summary 20 2] (Some (summary 20 2)))
  /\ exit_status (returned (run (main no_text w))) = 0%Z.
Proof. vm_compute. split; reflexivity. Qed.

(** Scenario B: a sale item whose product is not in the catalogue
    contributes nothing, a warning names the product, and the exit status
    is 0. *)
Example scenario_B_unknown_product :
  let w := World ["computeSales.py"; "prices.json"; "sales.json"]
             (fun path => if String.eqb path "prices.json"
                          then Ok (VList [catalogue_entry "A" (VInt 10)])
                          else Ok (VList [transaction [line_item "Z" (VInt 2);
                                                       line_item "A" (VInt 1)]]))
             (Ok tt) 5%float 7%float in
  printed (run (main no_text w))
  = [[Lit "WARNING: Product '"; Field (VStr "Z") ""; Lit "' not in catalogue."];
     summary 10 2]
  /\ exit_status (returned (run (main no_text w))) = 0%Z.
Proof. vm_compute. split; reflexivity. Qed.

(** Scenario D: when the price catalogue file does not exist the
    program exits with status 1 and writes no results file. *)
Example scenario_D_missing_catalogue :
  let w := World ["computeSales.py"; "prices.json"; "sales.json"]
             (fun path => if String.eqb path "prices.json"
                          then Raise (FileNotFoundError "No such file or directory")
                          else Ok (VList [transaction [line_item "A" (VInt 2)]]))
             (Ok tt) 5%float 7%float in
  run (main no_text w)
  = (Raise (SystemExit 1),
     State [] [[Lit "ERROR: File 'prices.json' not found."]] None)
  /\ exit_status (returned (run (main no_text w))) = 1%Z.
Proof. vm_compute. split; reflexivity. Qed.

(** Scenario E: two transactions of three items each, prices 5, 10
    and 15, quantities 1, 2 and 1, give the total 80.0. *)
Example scenario_E_total_80 :
  let catalogue := VList [catalogue_entry "A" (VInt 5); catalogue_entry "B" (VInt 10);
                          catalogue_entry "C" (VInt 15)] in
  let sale := transaction [line_item "A" (VInt 1); line_item "B" (VInt 2);
                           line_item "C" (VInt 1)] in
  returned (run (price_dict <- build_price_dict no_text catalogue ;;
                 compute_total_sales no_text (VList [sale; sale]) price_dict))
  = Ok 80%float.
Proof. vm_compute. reflexivity. Qed.
